(** * AACDecoder: the AAC decoder stage of libstagefright

    A shallow embedding of
    [media/libstagefright/codecs/aacdec/AACDecoder.cpp] and the properties of
    its life cycle ([start], [stop]), its format query ([getFormat]) and its
    pull-based [read].

    The decoder library (PacketVideo's [PVMP4AudioDecoder*] entry points), the
    upstream [MediaSource] and the [ESDS] parser are collaborators whose code
    is not part of the translation unit; they are the fields of an
    environment record [Env], and every statement is proved for all
    environments. *)

From Stdlib Require Import ZArith Lia.
From stdpp Require Import base option list gmap strings.

Local Open Scope Z_scope.

(** ** Machine integers *)

Module MachineInt.

(** An unsigned [bits]-wide value: arithmetic is modulo [2^bits]. *)
Definition wrap_unsigned (bits z : Z) : Z := z mod 2 ^ bits.

(** A two's complement [bits]-wide value. *)
Definition wrap_signed (bits z : Z) : Z :=
  (z + 2 ^ (bits - 1)) mod 2 ^ bits - 2 ^ (bits - 1).

(** [size_t] of the platform ABI (ILP32). *)
Definition size_bits : Z := 32.
Definition to_size_t (z : Z) : Z := wrap_unsigned size_bits z.
Definition size_add (a b : Z) : Z := to_size_t (a + b).
Definition size_sub (a b : Z) : Z := to_size_t (a - b).
Definition size_mul (a b : Z) : Z := to_size_t (a * b).

(** [Int] and [Int32] of the decoder library: 32 bits, two's complement. *)
Definition to_int32 (z : Z) : Z := wrap_signed 32 z.

Definition INT64_MIN : Z := - 2 ^ 63.
Definition INT64_MAX : Z := 2 ^ 63 - 1.
Definition to_int64 (z : Z) : Z := wrap_signed 64 z.
Definition int64_add (a b : Z) : Z := to_int64 (a + b).
Definition int64_mul (a b : Z) : Z := to_int64 (a * b).

(** C's [/] on [int64_t]: truncation towards zero; a zero divisor and
    [INT64_MIN / -1] have no defined result. *)
Definition int64_div (a b : Z) : option Z :=
  if b =? 0 then None
  else if (a =? INT64_MIN) && (b =? -1) then None
  else Some (a ÷ b).

Definition in_int64 (z : Z) : Prop := INT64_MIN <= z <= INT64_MAX.
Definition in_size_t (z : Z) : Prop := 0 <= z < 2 ^ size_bits.

End MachineInt.
Import MachineInt.

(** ** Outcomes of a call

    A call returns, dies in a failed [CHECK] ([Aborts]: the process is
    terminated by the assertion), or leaves the defined behaviour of the
    language ([Undefined]: a null dereference, a division by zero, a write
    past the end of a buffer). *)

Inductive outcome (A : Type) : Type :=
  | Returns (a : A)
  | Aborts
  | Undefined.
Arguments Returns {A} a.
Arguments Aborts {A}.
Arguments Undefined {A}.

Global Instance outcome_ret : MRet outcome := fun _ a => Returns a.
Global Instance outcome_bind : MBind outcome := fun _ _ k m =>
  match m with
  | Returns a => k a
  | Aborts => Aborts
  | Undefined => Undefined
  end.

(** [CHECK(cond)] of [MediaDebug.h]. *)
Definition CHECK (cond : bool) : outcome unit :=
  if cond then Returns tt else Aborts.

(** A dereference of a pointer that may be null. *)
Definition deref {A : Type} (p : option A) : outcome A :=
  match p with
  | Some a => Returns a
  | None => Undefined
  end.

(** ** Status codes and meta data *)

Definition status_t : Type := Z.
Definition OK : status_t := 0.
(** [MediaErrors.h]: [MEDIA_ERROR_BASE - 10]. *)
Definition ERROR_UNSUPPORTED : status_t := -1010.
Definition MP4AUDEC_SUCCESS : Z := 0.

(** The keys of [MetaData.h] that this file uses. *)
Inductive Key : Type :=
  | kKeyMIMEType
  | kKeyChannelCount
  | kKeySampleRate
  | kKeyDuration
  | kKeyTime
  | kKeyESDS
  | kKeyDecoderComponent.

Global Instance Key_eq_dec : EqDecision Key.
Proof. solve_decision. Defined.

Definition Key_to_nat (k : Key) : nat :=
  match k with
  | kKeyMIMEType => 0
  | kKeyChannelCount => 1
  | kKeySampleRate => 2
  | kKeyDuration => 3
  | kKeyTime => 4
  | kKeyESDS => 5
  | kKeyDecoderComponent => 6
  end%nat.

Definition Key_of_nat (n : nat) : option Key :=
  match n with
  | 0 => Some kKeyMIMEType
  | 1 => Some kKeyChannelCount
  | 2 => Some kKeySampleRate
  | 3 => Some kKeyDuration
  | 4 => Some kKeyTime
  | 5 => Some kKeyESDS
  | 6 => Some kKeyDecoderComponent
  | _ => None
  end%nat.

Global Instance Key_countable : Countable Key.
Proof.
  refine (inj_countable Key_to_nat Key_of_nat _).
  intros []; reflexivity.
Defined.

(** A typed item of a [MetaData] store. *)
Inductive typed_data : Type :=
  | CStringItem (s : string)
  | Int32Item (v : Z)
  | Int64Item (v : Z)
  | DataItem (type : Z) (bytes : list Byte.byte).

(** Modelled from the spec: [MetaData] (media/stagefright/MetaData.h) is not
    among the sources; it is the typed key-value store behind the "format
    descriptor" and the per-buffer timestamp: a [find] of one type succeeds
    only on an item that was [set] with that type. *)
Module MetaData.

Abbreviation t := (gmap Key typed_data).

Definition empty : t := ∅.

Definition setCString (k : Key) (s : string) (m : t) : t :=
  <[k := CStringItem s]> m.
Definition setInt32 (k : Key) (v : Z) (m : t) : t :=
  <[k := Int32Item v]> m.
Definition setInt64 (k : Key) (v : Z) (m : t) : t :=
  <[k := Int64Item v]> m.

Definition findCString (k : Key) (m : t) : option string :=
  match m !! k with Some (CStringItem s) => Some s | _ => None end.
Definition findInt32 (k : Key) (m : t) : option Z :=
  match m !! k with Some (Int32Item v) => Some v | _ => None end.
Definition findInt64 (k : Key) (m : t) : option Z :=
  match m !! k with Some (Int64Item v) => Some v | _ => None end.
Definition findData (k : Key) (m : t) : option (Z * list Byte.byte) :=
  match m !! k with Some (DataItem ty b) => Some (ty, b) | _ => None end.

End MetaData.

Definition MEDIA_MIMETYPE_AUDIO_RAW : string := "audio/raw".

(** ** Buffers *)

(** A [MediaBuffer]: backing store, capacity, the valid range and the
    per-buffer meta data. *)
Record MediaBuffer : Type := mkMediaBuffer {
  mData : list Byte.byte;
  mSize : Z;
  mRangeOffset : Z;
  mRangeLength : Z;
  mMetaData : gmap Key typed_data
}.

(** [new MediaBuffer(size)]. *)
Definition MediaBuffer_new (size : Z) : MediaBuffer :=
  {| mData := replicate (Z.to_nat size) Byte.x00;
     mSize := size;
     mRangeOffset := 0;
     mRangeLength := size;
     mMetaData := MetaData.empty |}.

Definition set_range (offset length : Z) (b : MediaBuffer) : MediaBuffer :=
  {| mData := mData b; mSize := mSize b;
     mRangeOffset := offset; mRangeLength := length;
     mMetaData := mMetaData b |}.

Definition set_data (d : list Byte.byte) (b : MediaBuffer) : MediaBuffer :=
  {| mData := d; mSize := mSize b;
     mRangeOffset := mRangeOffset b; mRangeLength := mRangeLength b;
     mMetaData := mMetaData b |}.

Definition set_meta (m : gmap Key typed_data) (b : MediaBuffer) : MediaBuffer :=
  {| mData := mData b; mSize := mSize b;
     mRangeOffset := mRangeOffset b; mRangeLength := mRangeLength b;
     mMetaData := m |}.

(** [memset(buffer->data(), 0, n)]: the first [n] bytes become zero; writing
    past the capacity of the buffer is undefined. *)
Definition memset_zero (n : Z) (b : MediaBuffer) : outcome MediaBuffer :=
  if n <=? mSize b
  then Returns (set_data (replicate (Z.to_nat n) Byte.x00
                            ++ drop (Z.to_nat n) (mData b)) b)
  else Undefined.

(** Modelled from the spec: [MediaBufferGroup] is not among the sources; it is
    the "Buffer Pool" of the spec, [acquire() -> buffer | Exhausted]: a list
    of buffers, each either free or handed out. *)
Module MediaBufferGroup.

Record slot : Type := mkSlot { slot_buffer : MediaBuffer; slot_in_use : bool }.

Abbreviation t := (list slot).

Definition empty : t := [].

Definition add_buffer (b : MediaBuffer) (g : t) : t :=
  g ++ [mkSlot b false].

Fixpoint find_free (g : t) (i : nat) : option (nat * MediaBuffer) :=
  match g with
  | [] => None
  | s :: g' =>
      if slot_in_use s then find_free g' (S i) else Some (i, slot_buffer s)
  end.

(** The status, and on success the index of the slot and its buffer, with
    the slot marked as handed out. *)
Definition acquire_buffer (g : t) : status_t * option (nat * MediaBuffer) * t :=
  match find_free g 0 with
  | Some (i, b) => (OK, Some (i, b), <[i := mkSlot b true]> g)
  | None => (-1, None, g)
  end.

(** The pool's view of a buffer that the holder has written to. *)
Definition store (i : nat) (b : MediaBuffer) (g : t) : t :=
  <[i := mkSlot b true]> g.

(** The consumer's [release] of an output buffer. *)
Definition release (i : nat) (g : t) : t :=
  match g !! i with
  | Some s => <[i := mkSlot (slot_buffer s) false]> g
  | None => g
  end.

End MediaBufferGroup.

(** ** The decoder library's interface record

    [tPVMP4AudioDecoderExternal] of [pvmp4audiodecoder_api.h], restricted to
    the members that [AACDecoder.cpp] reads or writes.  A pointer member is
    modelled by the bytes visible through it ([None] is the null pointer). *)

Inductive tPVMP4AudioDecoderOutputFormat : Type :=
  | OUTPUTFORMAT_16PCM_GROUPED
  | OUTPUTFORMAT_16PCM_INTERLEAVED.

Record tPVMP4AudioDecoderExternal : Type := mkExternal {
  pInputBuffer : option (list Byte.byte);
  inputBufferCurrentLength : Z;
  inputBufferMaxLength : Z;
  outputFormat : tPVMP4AudioDecoderOutputFormat;
  pOutputBuffer : option (list Byte.byte);
  pOutputBuffer_plus : option (list Byte.byte);
  aacPlusUpsamplingFactor : Z;
  aacPlusEnabled : bool;
  repositionFlag : bool;
  desiredChannels : Z;
  inputBufferUsedLength : Z;
  remainderBits : Z;
  samplingRate : Z;
  frameLength : Z
}.

(** The assignments of [start], lines 56-62. *)
Definition configure_output (c : tPVMP4AudioDecoderExternal)
  : tPVMP4AudioDecoderExternal :=
  {| pInputBuffer := pInputBuffer c;
     inputBufferCurrentLength := inputBufferCurrentLength c;
     inputBufferMaxLength := inputBufferMaxLength c;
     outputFormat := OUTPUTFORMAT_16PCM_INTERLEAVED;
     pOutputBuffer := pOutputBuffer c;
     pOutputBuffer_plus := pOutputBuffer_plus c;
     aacPlusUpsamplingFactor := 0;
     aacPlusEnabled := false;
     repositionFlag := repositionFlag c;
     desiredChannels := 2;
     inputBufferUsedLength := inputBufferUsedLength c;
     remainderBits := remainderBits c;
     samplingRate := samplingRate c;
     frameLength := frameLength c |}.

(** The assignments before a call into the library, lines 83-91 of [start]
    and 194-204 of [read]: the input cursor and its length, the output
    cursor, and the transient members reset.  The length is a [size_t] in
    both places and [inputBufferCurrentLength] a 32-bit [Int]: the
    assignment converts it. *)
Definition prepare_call (input : option (list Byte.byte)) (length : Z)
    (output : option (list Byte.byte)) (c : tPVMP4AudioDecoderExternal)
  : tPVMP4AudioDecoderExternal :=
  {| pInputBuffer := input;
     inputBufferCurrentLength := to_int32 length;
     inputBufferMaxLength := 0;
     outputFormat := outputFormat c;
     pOutputBuffer := output;
     pOutputBuffer_plus := None;
     aacPlusUpsamplingFactor := aacPlusUpsamplingFactor c;
     aacPlusEnabled := aacPlusEnabled c;
     repositionFlag := false;
     desiredChannels := desiredChannels c;
     inputBufferUsedLength := 0;
     remainderBits := 0;
     samplingRate := samplingRate c;
     frameLength := frameLength c |}.

(** [MediaSource::ReadOptions]: an optional seek target. *)
Record ReadOptions : Type := mkReadOptions { getSeekTo : option Z }.

(** ** The collaborators *)

(** What one call of [PVMP4AudioDecodeFrame] leaves behind: its return value,
    the interface record and the scratch memory as the library updated them,
    and the contents of the memory at [pOutputBuffer]. *)
Record DecodeResult (Scratch : Type) : Type := mkDecodeResult {
  dr_status : Z;
  dr_config : tPVMP4AudioDecoderExternal;
  dr_scratch : Scratch;
  dr_output : list Byte.byte
}.
Arguments dr_status {Scratch} _.
Arguments dr_config {Scratch} _.
Arguments dr_scratch {Scratch} _.
Arguments dr_output {Scratch} _.

Record Env : Type := mkEnv {
  (** the upstream [MediaSource] *)
  SrcState : Type;
  src_getFormat : SrcState -> gmap Key typed_data;
  src_start : SrcState -> SrcState;
  src_stop : SrcState -> SrcState;
  src_read : SrcState -> option ReadOptions
             -> SrcState * status_t * option MediaBuffer;
  (** the decoder library *)
  Scratch : Type;
  PVMP4AudioDecoderGetMemRequirements : Z;
  malloc : Z -> Scratch;
  PVMP4AudioDecoderInitLibrary :
    tPVMP4AudioDecoderExternal -> Scratch
    -> Z * tPVMP4AudioDecoderExternal * Scratch;
  PVMP4AudioDecoderConfig :
    tPVMP4AudioDecoderExternal -> Scratch
    -> Z * tPVMP4AudioDecoderExternal * Scratch;
  PVMP4AudioDecodeFrame :
    tPVMP4AudioDecoderExternal -> Scratch -> DecodeResult Scratch;
  (** [ESDS]: the codec specific info of a well-formed descriptor, [None]
      when [InitCheck] is not [OK] *)
  esds_codec_specific_info : list Byte.byte -> option (list Byte.byte)
}.

(** The calls that leave the stage, in the order they are made. *)
Inductive Event : Type :=
  | SourceStarted
  | SourceStopped
  | SourceRead (options : option ReadOptions)
  | BufferReleased (b : MediaBuffer)
  | BufferAcquired
  | Malloc (n : Z)
  | Free
  | EngineInit
  | EngineConfig
  | EngineDecode.

(** ** The stage *)

Section Stage.

Variable E : Env.

(** The members of [AACDecoder].  [mSource] holds the state of the source
    object the stage refers to; [events] is the record of the calls made to
    the collaborators and is not a member of the class. *)
Record AACDecoder : Type := mkAACDecoder {
  mSource : SrcState E;
  mStarted : bool;
  mBufferGroup : option MediaBufferGroup.t;
  mConfig : tPVMP4AudioDecoderExternal;
  mDecoderBuf : option (Scratch E);
  mAnchorTimeUs : Z;
  mNumSamplesOutput : Z;
  mInputBuffer : option MediaBuffer;
  events : list Event
}.

Definition with_source (x : SrcState E) (s : AACDecoder) : AACDecoder :=
  mkAACDecoder x (mStarted s) (mBufferGroup s) (mConfig s) (mDecoderBuf s)
    (mAnchorTimeUs s) (mNumSamplesOutput s) (mInputBuffer s) (events s).
Definition with_started (x : bool) (s : AACDecoder) : AACDecoder :=
  mkAACDecoder (mSource s) x (mBufferGroup s) (mConfig s) (mDecoderBuf s)
    (mAnchorTimeUs s) (mNumSamplesOutput s) (mInputBuffer s) (events s).
Definition with_group (x : option MediaBufferGroup.t) (s : AACDecoder)
  : AACDecoder :=
  mkAACDecoder (mSource s) (mStarted s) x (mConfig s) (mDecoderBuf s)
    (mAnchorTimeUs s) (mNumSamplesOutput s) (mInputBuffer s) (events s).
Definition with_config (x : tPVMP4AudioDecoderExternal) (s : AACDecoder)
  : AACDecoder :=
  mkAACDecoder (mSource s) (mStarted s) (mBufferGroup s) x (mDecoderBuf s)
    (mAnchorTimeUs s) (mNumSamplesOutput s) (mInputBuffer s) (events s).
Definition with_decoderBuf (x : option (Scratch E)) (s : AACDecoder)
  : AACDecoder :=
  mkAACDecoder (mSource s) (mStarted s) (mBufferGroup s) (mConfig s) x
    (mAnchorTimeUs s) (mNumSamplesOutput s) (mInputBuffer s) (events s).
Definition with_anchor (x : Z) (s : AACDecoder) : AACDecoder :=
  mkAACDecoder (mSource s) (mStarted s) (mBufferGroup s) (mConfig s)
    (mDecoderBuf s) x (mNumSamplesOutput s) (mInputBuffer s) (events s).
Definition with_samples (x : Z) (s : AACDecoder) : AACDecoder :=
  mkAACDecoder (mSource s) (mStarted s) (mBufferGroup s) (mConfig s)
    (mDecoderBuf s) (mAnchorTimeUs s) x (mInputBuffer s) (events s).
Definition with_input (x : option MediaBuffer) (s : AACDecoder) : AACDecoder :=
  mkAACDecoder (mSource s) (mStarted s) (mBufferGroup s) (mConfig s)
    (mDecoderBuf s) (mAnchorTimeUs s) (mNumSamplesOutput s) x (events s).
Definition emit (e : Event) (s : AACDecoder) : AACDecoder :=
  mkAACDecoder (mSource s) (mStarted s) (mBufferGroup s) (mConfig s)
    (mDecoderBuf s) (mAnchorTimeUs s) (mNumSamplesOutput s) (mInputBuffer s)
    (events s ++ [e]).

(** The constructor.  [new tPVMP4AudioDecoderExternal] leaves the members of
    the record indeterminate: [garbage] is what the allocation holds. *)
Definition AACDecoder_new (source : SrcState E)
    (garbage : tPVMP4AudioDecoderExternal) : AACDecoder :=
  {| mSource := source;
     mStarted := false;
     mBufferGroup := None;
     mConfig := garbage;
     mDecoderBuf := None;
     mAnchorTimeUs := 0;
     mNumSamplesOutput := 0;
     mInputBuffer := None;
     events := [] |}.

(** [if (mInputBuffer) { mInputBuffer->release(); mInputBuffer = NULL; }] *)
Definition release_input (s : AACDecoder) : AACDecoder :=
  match mInputBuffer s with
  | Some b => with_input None (emit (BufferReleased b) s)
  | None => s
  end.

(** The tail of [start], lines 99-105. *)
Definition start_source (s : AACDecoder) : status_t * AACDecoder :=
  let s := with_source (src_start E (mSource s)) (emit SourceStarted s) in
  let s := with_anchor 0 s in
  let s := with_samples 0 s in
  let s := with_started true s in
  (OK, s).

(** [status_t AACDecoder::start(MetaData *params)] *)
Definition start (params : option (gmap Key typed_data)) (s : AACDecoder)
  : outcome (status_t * AACDecoder) :=
  _ ← CHECK (negb (mStarted s));
  let s := with_group
             (Some (MediaBufferGroup.add_buffer (MediaBuffer_new (2048 * 2))
                      MediaBufferGroup.empty)) s in
  let s := with_config (configure_output (mConfig s)) s in
  let memRequirements := PVMP4AudioDecoderGetMemRequirements E in
  let s := with_decoderBuf (Some (malloc E memRequirements))
             (emit (Malloc memRequirements) s) in
  scratch ← deref (mDecoderBuf s);
  let '(rc, cfg, scratch) := PVMP4AudioDecoderInitLibrary E (mConfig s) scratch in
  let s := with_decoderBuf (Some scratch) (with_config cfg (emit EngineInit s)) in
  _ ← CHECK (rc =? MP4AUDEC_SUCCESS);
  let meta := src_getFormat E (mSource s) in
  match MetaData.findData kKeyESDS meta with
  | Some (_, data) =>
      match esds_codec_specific_info E data with
      | None => Aborts
      | Some codec_specific_data =>
          let s := with_config
                     (prepare_call (Some codec_specific_data)
                        (Z.of_nat (length codec_specific_data)) None
                        (mConfig s)) s in
          scratch ← deref (mDecoderBuf s);
          let '(rc, cfg, scratch) :=
            PVMP4AudioDecoderConfig E (mConfig s) scratch in
          let s := with_decoderBuf (Some scratch)
                     (with_config cfg (emit EngineConfig s)) in
          if negb (rc =? MP4AUDEC_SUCCESS)
          then Returns (ERROR_UNSUPPORTED, s)
          else Returns (start_source s)
      end
  | None => Returns (start_source s)
  end.

(** [status_t AACDecoder::stop()] *)
Definition stop (s : AACDecoder) : outcome (status_t * AACDecoder) :=
  _ ← CHECK (mStarted s);
  let s := release_input s in
  let s := with_decoderBuf None (emit Free s) in
  let s := with_group None s in
  let s := with_source (src_stop E (mSource s)) (emit SourceStopped s) in
  let s := with_started false s in
  Returns (OK, s).

(** [sp<MetaData> AACDecoder::getFormat()] *)
Definition getFormat (s : AACDecoder)
  : outcome (gmap Key typed_data * AACDecoder) :=
  let srcFormat := src_getFormat E (mSource s) in
  match MetaData.findInt32 kKeySampleRate srcFormat with
  | None => Aborts
  | Some sampleRate =>
      let meta := MetaData.empty in
      let meta := MetaData.setCString kKeyMIMEType MEDIA_MIMETYPE_AUDIO_RAW meta in
      let meta := MetaData.setInt32 kKeyChannelCount 2 meta in
      let meta := MetaData.setInt32 kKeySampleRate sampleRate meta in
      let meta :=
        match MetaData.findInt64 kKeyDuration srcFormat with
        | Some durationUs => MetaData.setInt64 kKeyDuration durationUs meta
        | None => meta
        end in
      let meta := MetaData.setCString kKeyDecoderComponent "AACDecoder" meta in
      Returns (meta, s)
  end.

(** *** [read]

    [read] is the composition of three blocks of the source: the seek
    handling (lines 160-172), the pull from the source (lines 174-189) and
    the decode of one frame (lines 191-245). *)

(** Lines 160-172: the value of [seekTimeUs] and the state after the block. *)
Definition read_seek (options : option ReadOptions) (s : AACDecoder)
  : outcome (Z * AACDecoder) :=
  match options ≫= getSeekTo with
  | Some seekTimeUs =>
      _ ← CHECK (0 <=? seekTimeUs);
      let s := with_samples 0 s in
      let s := release_input s in
      Returns (seekTimeUs, s)
  | None => Returns (-1, s)
  end.

(** Lines 174-189: [Some err] is the early [return err]. *)
Definition read_fetch (options : option ReadOptions) (seekTimeUs : Z)
    (s : AACDecoder) : outcome (option status_t * AACDecoder) :=
  match mInputBuffer s with
  | Some _ => Returns (None, s)
  | None =>
      let '(src, err, unit) := src_read E (mSource s) options in
      let s := with_input unit
                 (with_source src (emit (SourceRead options) s)) in
      if negb (err =? OK) then Returns (Some err, s)
      else
        input ← deref (mInputBuffer s);
        match MetaData.findInt64 kKeyTime (mMetaData input) with
        | Some timeUs =>
            let s := with_anchor timeUs s in
            let s := with_samples 0 s in
            Returns (None, s)
        | None =>
            _ ← CHECK (seekTimeUs <? 0);
            Returns (None, s)
        end
  end.

(** [numOutBytes], lines 208-209. *)
Definition numOutBytes (c : tPVMP4AudioDecoderExternal) : Z :=
  size_mul (size_mul (to_size_t (frameLength c)) 2)
           (to_size_t (desiredChannels c)).

(** Lines 225-234: the window of the input buffer after the decode. *)
Definition advance_input (c : tPVMP4AudioDecoderExternal) (s : AACDecoder)
  : AACDecoder :=
  match mInputBuffer s with
  | Some input =>
      let input :=
        set_range
          (size_add (mRangeOffset input) (inputBufferUsedLength c))
          (size_sub (mRangeLength input) (inputBufferUsedLength c))
          input in
      let s := with_input (Some input) s in
      if mRangeLength input =? 0 then release_input s else s
  | None => s
  end.

(** The time stamped on the output buffer, lines 236-239. *)
Definition timestamp (anchorTimeUs numSamplesOutput rate : Z) : option Z :=
  q ← int64_div (int64_mul numSamplesOutput 1000000) rate;
  Some (int64_add anchorTimeUs q).

(** Lines 194-204: the interface record handed to the decode step; the input
    cursor is the unconsumed remainder of [input]. *)
Definition decode_call (input buffer : MediaBuffer)
    (c : tPVMP4AudioDecoderExternal) : tPVMP4AudioDecoderExternal :=
  prepare_call
    (Some (drop (Z.to_nat (mRangeOffset input)) (mData input)))
    (mRangeLength input)
    (Some (mData buffer))
    c.

(** Lines 211-221: on an error of the decode step the output is silenced
    and the input buffer discarded. *)
Definition substitute_silence (decoderErr n : Z) (buffer : MediaBuffer)
    (s : AACDecoder) : outcome (MediaBuffer * AACDecoder) :=
  if negb (decoderErr =? MP4AUDEC_SUCCESS)
  then
    buffer ← memset_zero n buffer;
    Returns (buffer, release_input s)
  else Returns (buffer, s).

(** Lines 191-245. *)
Definition read_decode (s : AACDecoder) : outcome (MediaBuffer * AACDecoder) :=
  group ← deref (mBufferGroup s);
  let '(rc, acquired, group) := MediaBufferGroup.acquire_buffer group in
  let s := with_group (Some group) (emit BufferAcquired s) in
  _ ← CHECK (rc =? OK);
  '(slot, buffer) ← deref acquired;
  input ← deref (mInputBuffer s);
  let s := with_config (decode_call input buffer (mConfig s)) s in
  scratch ← deref (mDecoderBuf s);
  let r := PVMP4AudioDecodeFrame E (mConfig s) scratch in
  let decoderErr := dr_status r in
  let buffer := set_data (dr_output r) buffer in
  let s := with_decoderBuf (Some (dr_scratch r))
             (with_config (dr_config r) (emit EngineDecode s)) in
  let n := numOutBytes (mConfig s) in
  '(buffer, s) ← substitute_silence decoderErr n buffer s;
  let buffer := set_range 0 n buffer in
  let s := advance_input (mConfig s) s in
  timeUs ← deref (timestamp (mAnchorTimeUs s) (mNumSamplesOutput s)
                    (samplingRate (mConfig s)));
  let buffer :=
    set_meta (MetaData.setInt64 kKeyTime timeUs (mMetaData buffer)) buffer in
  let s := with_samples
             (int64_add (mNumSamplesOutput s) (frameLength (mConfig s))) s in
  let s := with_group
             (MediaBufferGroup.store slot buffer <$> mBufferGroup s) s in
  Returns (buffer, s).

(** [status_t AACDecoder::read(MediaBuffer **out, const ReadOptions *options)]:
    [out] is what the caller's variable holds on entry; the result carries
    what it holds on return. *)
Definition read (out : option MediaBuffer) (options : option ReadOptions)
    (s : AACDecoder) : outcome (status_t * option MediaBuffer * AACDecoder) :=
  let out : option MediaBuffer := None in
  '(seekTimeUs, s) ← read_seek options s;
  '(early, s) ← read_fetch options seekTimeUs s;
  match early with
  | Some err => Returns (err, out, s)
  | None =>
      '(buffer, s) ← read_decode s;
      let out := Some buffer in
      Returns (OK, out, s)
  end.

End Stage.

Arguments mSource {E} _.
Arguments mStarted {E} _.
Arguments mBufferGroup {E} _.
Arguments mConfig {E} _.
Arguments mDecoderBuf {E} _.
Arguments mAnchorTimeUs {E} _.
Arguments mNumSamplesOutput {E} _.
Arguments mInputBuffer {E} _.
Arguments events {E} _.
Arguments with_source {E} _ _.
Arguments with_started {E} _ _.
Arguments with_group {E} _ _.
Arguments with_config {E} _ _.
Arguments with_decoderBuf {E} _ _.
Arguments with_anchor {E} _ _.
Arguments with_samples {E} _ _.
Arguments with_input {E} _ _.
Arguments emit {E} _ _.
Arguments release_input {E} _.
Arguments advance_input {E} _ _.
Arguments substitute_silence {E} _ _ _ _.

(** ** Contracts of the collaborators and invariants of the stage *)

(** [desiredChannels] is an input of the library: no entry point writes it. *)
Record keeps_channels (E : Env) : Prop := {
  init_keeps_channels : forall c m,
    desiredChannels (PVMP4AudioDecoderInitLibrary E c m).1.2 = desiredChannels c;
  config_keeps_channels : forall c m,
    desiredChannels (PVMP4AudioDecoderConfig E c m).1.2 = desiredChannels c;
  decode_keeps_channels : forall c m,
    desiredChannels (dr_config (PVMP4AudioDecodeFrame E c m)) = desiredChannels c
}.

(** The source stamps the unit it lands on after a seek. *)
Definition stamps_after_seek (E : Env) : Prop :=
  forall (src src' : SrcState E) options (seekTimeUs : Z) (unit : MediaBuffer),
    options ≫= getSeekTo = Some seekTimeUs ->
    src_read E src options = (src', OK, Some unit) ->
    is_Some (MetaData.findInt64 kKeyTime (mMetaData unit)).

(** The scratch memory of the library is held exactly while the stage is
    started. *)
Definition engine_state_invariant {E : Env} (s : AACDecoder E) : Prop :=
  is_Some (mDecoderBuf s) <-> mStarted s = true.

(** The buffers of a pool. *)
Definition pool_buffers {E : Env} (s : AACDecoder E) : option (list MediaBuffer) :=
  map MediaBufferGroup.slot_buffer <$> mBufferGroup s.

(** The event of the release of the input buffer, if one is held. *)
Definition released {E : Env} (s : AACDecoder E) : list Event :=
  match mInputBuffer s with
  | Some b => [BufferReleased b]
  | None => []
  end.

(** The state in which the decode step of [read] has just returned [r]:
    lines 191-206. *)
Definition after_decode_step {E : Env} (s : AACDecoder E)
    (group : MediaBufferGroup.t) (input buffer : MediaBuffer)
    (r : DecodeResult (Scratch E)) : AACDecoder E :=
  with_decoderBuf (Some (dr_scratch r))
    (with_config (dr_config r)
       (emit EngineDecode
          (with_config (decode_call input buffer (mConfig s))
             (with_group (Some group) (emit BufferAcquired s))))).

(** The release that the seek block of [read] makes. *)
Definition seek_released {E : Env} (options : option ReadOptions)
    (s : AACDecoder E) : list Event :=
  match options ≫= getSeekTo with
  | Some _ => released s
  | None => []
  end.

(** The calls a stage made since it was in state [s]. *)
Definition events_since {E : Env} (s s' : AACDecoder E) : list Event :=
  drop (length (events s)) (events s').

(** ** A scripted environment

    A source that hands out a fixed list of units and then reports the end
    of the stream, and a library whose decode steps report what a script
    says.  The state of the source is the index of the next unit, the
    scratch memory of the library the number of decode steps made. *)

Module Scenario.

Definition ERROR_END_OF_STREAM : status_t := -1011.

Record report : Type := mkReport {
  rp_status : Z;
  rp_frameLength : Z;
  rp_used : Z;
  rp_samplingRate : Z;
  rp_pcm : list Byte.byte
}.

Definition apply_report (r : report) (c : tPVMP4AudioDecoderExternal)
  : tPVMP4AudioDecoderExternal :=
  {| pInputBuffer := pInputBuffer c;
     inputBufferCurrentLength := inputBufferCurrentLength c;
     inputBufferMaxLength := inputBufferMaxLength c;
     outputFormat := outputFormat c;
     pOutputBuffer := pOutputBuffer c;
     pOutputBuffer_plus := pOutputBuffer_plus c;
     aacPlusUpsamplingFactor := aacPlusUpsamplingFactor c;
     aacPlusEnabled := aacPlusEnabled c;
     repositionFlag := repositionFlag c;
     desiredChannels := desiredChannels c;
     inputBufferUsedLength := rp_used r;
     remainderBits := remainderBits c;
     samplingRate := rp_samplingRate r;
     frameLength := rp_frameLength r |}.

Definition env (format : gmap Key typed_data) (units : list MediaBuffer)
    (config_status : Z) (script : list report) : Env :=
  {| SrcState := nat;
     src_getFormat := fun _ => format;
     src_start := fun i => i;
     src_stop := fun i => i;
     src_read := fun i _ =>
       match units !! i with
       | Some u => (S i, OK, Some u)
       | None => (i, ERROR_END_OF_STREAM, None)
       end;
     Scratch := nat;
     PVMP4AudioDecoderGetMemRequirements := 64;
     malloc := fun _ => 0%nat;
     PVMP4AudioDecoderInitLibrary := fun c m => (MP4AUDEC_SUCCESS, c, m);
     PVMP4AudioDecoderConfig := fun c m => (config_status, c, m);
     PVMP4AudioDecodeFrame := fun c m =>
       match script !! m with
       | Some r => mkDecodeResult nat (rp_status r) (apply_report r c) (S m)
                     (rp_pcm r)
       | None => mkDecodeResult nat 20 c (S m) []
       end;
     esds_codec_specific_info := fun d => Some d |}.

(** An interface record as the allocation may hold it. *)
Definition garbage : tPVMP4AudioDecoderExternal :=
  mkExternal None 7 7 OUTPUTFORMAT_16PCM_GROUPED None None 7 true true 7 7 7 7 7.

(** A compressed unit of [bytes], stamped with [timeUs] when given. *)
Definition unit_of (bytes : list Byte.byte) (timeUs : option Z) : MediaBuffer :=
  {| mData := bytes;
     mSize := Z.of_nat (length bytes);
     mRangeOffset := 0;
     mRangeLength := Z.of_nat (length bytes);
     mMetaData :=
       match timeUs with
       | Some t => MetaData.setInt64 kKeyTime t MetaData.empty
       | None => MetaData.empty
       end |}.

Definition ten_bytes : list Byte.byte := replicate 10 Byte.xff.

(** Sample rate 44100, no codec configuration. *)
Definition format_44100 : gmap Key typed_data :=
  MetaData.setInt32 kKeyChannelCount 1
    (MetaData.setInt32 kKeySampleRate 44100 MetaData.empty).

(** The same with a duration and a codec configuration blob. *)
Definition format_esds : gmap Key typed_data :=
  <[kKeyESDS := DataItem 0 [Byte.x12; Byte.x10]]>
    (MetaData.setInt64 kKeyDuration 5000000 format_44100).

(** Two compressed units; the second is stamped or not. *)
Definition units (second : option Z) : list MediaBuffer :=
  [unit_of ten_bytes (Some 0); unit_of ten_bytes second].

(** Three decode steps: two that succeed and consume 4 and then 6 bytes, and
    one that fails; each reports 1024 frames at 44100 Hz. *)
Definition script : list report :=
  [mkReport 0 1024 4 44100 (replicate 4096 Byte.x01);
   mkReport 0 1024 6 44100 (replicate 4096 Byte.x02);
   mkReport 20 1024 3 44100 (replicate 4096 Byte.x03)].

Definition player (second : option Z) : Env :=
  env format_44100 (units second) 0 script.

(** A source at the end of its stream. *)
Definition drained : Env := env format_44100 [] 0 script.

Definition state_of {E : Env} {A : Type} (o : outcome (A * AACDecoder E))
    (otherwise : AACDecoder E) : AACDecoder E :=
  match o with
  | Returns (_, s) => s
  | _ => otherwise
  end.

(** The consumer hands the output buffer back to the pool. *)
Definition give_back {E : Env} (s : AACDecoder E) : AACDecoder E :=
  with_group (MediaBufferGroup.release 0 <$> mBufferGroup s) s.

Definition next {E : Env} (options : option ReadOptions) (s : AACDecoder E)
  : AACDecoder E :=
  give_back (state_of (read E None options s) s).

(** The player after [start], and after one, two and three reads. *)
Definition started (second : option Z) : AACDecoder (player second) :=
  state_of (start (player second) None
              (AACDecoder_new (player second) 0%nat garbage))
           (AACDecoder_new (player second) 0%nat garbage).
Definition started_drained : AACDecoder drained :=
  state_of (start drained None (AACDecoder_new drained 0%nat garbage))
           (AACDecoder_new drained 0%nat garbage).
Definition read1 (second : option Z) : AACDecoder (player second) :=
  next None (started second).
Definition read2 (second : option Z) : AACDecoder (player second) :=
  next None (read1 second).

Definition seek (t : Z) : option ReadOptions := Some (mkReadOptions (Some t)).

End Scenario.

(** ** The destructor

    [AACDecoder::~AACDecoder()], lines 41-48.  Once the object is gone, what
    is left to observe is the source it referred to, the record of the calls
    it made, and the blocks it allocated and did not free. *)

Record Remains (E : Env) : Type := mkRemains {
  rem_source : SrcState E;
  rem_events : list Event;
  rem_scratch : option (Scratch E);
  rem_pool : option MediaBufferGroup.t;
  rem_input : option MediaBuffer
}.
Arguments mkRemains {E} _ _ _ _ _.
Arguments rem_source {E} _.
Arguments rem_events {E} _.
Arguments rem_scratch {E} _.
Arguments rem_pool {E} _.
Arguments rem_input {E} _.

Definition destructor {E : Env} (s : AACDecoder E) : outcome (Remains E) :=
  s ← (if mStarted s
       then '(_, s) ← stop E s; Returns s
       else Returns s);
  (* delete mConfig; mConfig = NULL; *)
  Returns (mkRemains (mSource s) (events s) (mDecoderBuf s)
             (mBufferGroup s) (mInputBuffer s)).

(** ** Sequences of calls

    The calls a client makes on a stage: the four operations, and the
    release of an output buffer back to the pool. *)

Inductive Call : Type :=
  | CallStart (params : option (gmap Key typed_data))
  | CallStop
  | CallGetFormat
  | CallRead (options : option ReadOptions)
  | CallRelease (slot : nat).

(** One call: the status it returns, if it returns one, and the stage
    afterwards. *)
Definition call {E : Env} (c : Call) (s : AACDecoder E)
  : outcome (option status_t * AACDecoder E) :=
  match c with
  | CallStart params => '(st, s) ← start E params s; Returns (Some st, s)
  | CallStop => '(st, s) ← stop E s; Returns (Some st, s)
  | CallGetFormat => '(_, s) ← getFormat E s; Returns (None, s)
  | CallRead options =>
      '(st, _, s) ← read E None options s; Returns (Some st, s)
  | CallRelease slot =>
      Returns (None,
               with_group (MediaBufferGroup.release slot <$> mBufferGroup s) s)
  end.

(** A sequence of calls, with the status of each. *)
Fixpoint calls {E : Env} (cs : list Call) (s : AACDecoder E)
  : outcome (list (Call * option status_t) * AACDecoder E) :=
  match cs with
  | [] => Returns ([], s)
  | c :: cs =>
      '(st, s) ← call c s;
      '(log, s) ← calls cs s;
      Returns ((c, st) :: log, s)
  end.

(** No [start] of the sequence reported a status other than [OK]. *)
Definition start_succeeded (entry : Call * option status_t) : Prop :=
  match entry with
  | (CallStart _, Some st) => st = OK
  | _ => True
  end.

(** The scratch blocks allocated less those freed in a record of calls. *)
Definition allocation (e : Event) : Z :=
  match e with
  | Malloc _ => 1
  | Free => -1
  | _ => 0
  end.

Definition allocated (l : list Event) : Z :=
  foldr (fun e n => allocation e + n) 0 l.

(** The scratch blocks a stage holds. *)
Definition held {E : Env} (s : AACDecoder E) : Z :=
  match mDecoderBuf s with Some _ => 1 | None => 0 end.

Definition is_source_read (e : Event) : bool :=
  match e with SourceRead _ => true | _ => false end.
Definition is_acquire (e : Event) : bool :=
  match e with BufferAcquired => true | _ => false end.
Definition is_decode (e : Event) : bool :=
  match e with EngineDecode => true | _ => false end.
Definition is_source_start (e : Event) : bool :=
  match e with SourceStarted => true | _ => false end.

Definition is_malloc (e : Event) : bool :=
  match e with Malloc _ => true | _ => false end.
Definition is_free (e : Event) : bool :=
  match e with Free => true | _ => false end.

Definition count (p : Event -> bool) (l : list Event) : nat :=
  length (List.filter p l).

(** Whether a [read] with these options has to pull from the source: a seek
    is requested, or no input buffer is pending. *)
Definition pulls {E : Env} (options : option ReadOptions) (s : AACDecoder E)
  : bool :=
  match options ≫= getSeekTo, mInputBuffer s with
  | None, Some _ => false
  | _, _ => true
  end.



(** The capacities of the buffers of the pool. *)
Definition pool_capacities {E : Env} (s : AACDecoder E) : option (list Z) :=
  map (fun sl => mSize (MediaBufferGroup.slot_buffer sl)) <$> mBufferGroup s.
Lemma to_int32_id z : - 2 ^ 31 <= z < 2 ^ 31 -> to_int32 z = z.
Proof.
  unfold to_int32, wrap_signed. intros H. rewrite Z.mod_small; lia.
Qed.

Lemma to_int64_id z : in_int64 z -> to_int64 z = z.
Proof.
  unfold in_int64, INT64_MIN, INT64_MAX, to_int64, wrap_signed.
  intros H. rewrite Z.mod_small; lia.
Qed.

Lemma to_size_t_id z : in_size_t z -> to_size_t z = z.
Proof.
  unfold in_size_t, to_size_t, wrap_unsigned. intros H.
  apply Z.mod_small; lia.
Qed.

Lemma to_size_t_range z : in_size_t (to_size_t z).
Proof.
  unfold in_size_t, to_size_t, wrap_unsigned, size_bits.
  apply Z.mod_pos_bound. lia.
Qed.

Lemma int64_div_Some a b q :
  int64_div a b = Some q -> b <> 0 /\ q = a ÷ b.
Proof.
  unfold int64_div. destruct (Z.eqb_spec b 0); [discriminate|].
  destruct (_ && _); [discriminate|]. intros [= <-]. done.
Qed.

Lemma int64_div_defined a b :
  b <> 0 -> (a <> INT64_MIN \/ b <> -1) -> int64_div a b = Some (a ÷ b).
Proof.
  unfold int64_div. intros Hb Hor.
  destruct (Z.eqb_spec b 0); [done|].
  destruct (Z.eqb_spec a INT64_MIN), (Z.eqb_spec b (-1)); simpl; try done.
  lia.
Qed.


(** * Properties *)

(** ** Tactics *)

(** Case analysis on the calls into the collaborators made by [start]. *)
Ltac start_cases E s :=
  unfold start, start_source, CHECK;
  destruct (mStarted s) eqn:?; simpl; try discriminate;
  destruct (PVMP4AudioDecoderInitLibrary E _ _) as [[? ?] ?] eqn:?; simpl;
  destruct (_ =? MP4AUDEC_SUCCESS) eqn:?; simpl; try discriminate;
  destruct (MetaData.findData kKeyESDS _) as [[? ?]|] eqn:?; simpl;
  [ destruct (esds_codec_specific_info E _) eqn:?; simpl; try discriminate;
    destruct (PVMP4AudioDecoderConfig E _ _) as [[? ?] ?] eqn:?; simpl;
    destruct (negb _) eqn:?; simpl
  | ].

(** The state of a returned call, once the case is fixed. *)
Ltac returned :=
  let H := fresh in
  intros H; unfold ERROR_UNSUPPORTED, OK in H; simplify_eq.

(** ** Life cycle *)

Section LifeCycle.

Variable E : Env.
Implicit Types s : AACDecoder E.

Lemma new_engine_state_invariant src g :
  engine_state_invariant (AACDecoder_new E src g).
Proof. split; [intros [? [=]] | intros [=]]. Qed.

Lemma start_ok_engine_state_invariant params s s' :
  start E params s = Returns (OK, s') -> engine_state_invariant s'.
Proof.
  start_cases E s; returned; split; eauto.
Qed.

Lemma start_ok_started params s s' :
  start E params s = Returns (OK, s') ->
  mStarted s' = true /\ mAnchorTimeUs s' = 0 /\ mNumSamplesOutput s' = 0.
Proof. start_cases E s; returned; auto. Qed.

Lemma start_unsupported_state params s s' :
  start E params s = Returns (ERROR_UNSUPPORTED, s') ->
  mStarted s' = false /\ is_Some (mDecoderBuf s').
Proof. start_cases E s; returned; split; eauto. Qed.

Lemma stop_engine_state_invariant s st s' :
  stop E s = Returns (st, s') -> engine_state_invariant s'.
Proof.
  unfold stop, CHECK. destruct (mStarted s); simpl; [|discriminate].
  intros [= <- <-]. split; [intros [? [=]] | intros [=]].
Qed.

Lemma stop_releases_everything s st s' :
  stop E s = Returns (st, s') ->
  st = OK /\ mStarted s' = false /\ mDecoderBuf s' = None
  /\ mBufferGroup s' = None /\ mInputBuffer s' = None.
Proof.
  unfold stop, CHECK. destruct (mStarted s); simpl; [|discriminate].
  intros [= <- <-]. unfold release_input.
  destruct (mInputBuffer s) eqn:Hin; simpl; repeat split; done.
Qed.

Lemma start_pool params s st s' :
  start E params s = Returns (st, s') ->
  mBufferGroup s' = Some [MediaBufferGroup.mkSlot (MediaBuffer_new 4096) false].
Proof. start_cases E s; returned; reflexivity. Qed.

Lemma start_desired_channels params s st s' :
  keeps_channels E ->
  start E params s = Returns (st, s') -> desiredChannels (mConfig s') = 2.
Proof.
  intros [Hi Hc _].
  start_cases E s; returned; simpl;
    repeat match goal with
    | H : PVMP4AudioDecoderInitLibrary E ?c ?m = (_, ?c', _) |- _ =>
        let K := fresh in
        pose proof (Hi c m) as K; rewrite H in K; simpl in K; clear H
    | H : PVMP4AudioDecoderConfig E ?c ?m = (_, ?c', _) |- _ =>
        let K := fresh in
        pose proof (Hc c m) as K; rewrite H in K; simpl in K; clear H
    end; congruence.
Qed.

End LifeCycle.

(** C1: the scratch memory of the library should be held exactly while the
    stage is started, also after a [start] that reports an unsupported
    format.  The constructor, a successful [start] and [stop] keep this (the
    three lemmas above); the early return of [start] does not.  On a source
    whose format carries a codec configuration that the library rejects,
    [start] returns [ERROR_UNSUPPORTED] after the allocation and without
    freeing it: the stage is not started and still holds the scratch
    memory. *)
Lemma start_unsupported_breaks_engine_state_invariant :
  let E := Scenario.env Scenario.format_esds [] 5 [] in
  exists s' : AACDecoder E,
    start E None (AACDecoder_new E 0%nat Scenario.garbage)
      = Returns (ERROR_UNSUPPORTED, s')
    /\ mStarted s' = false
    /\ is_Some (mDecoderBuf s')
    /\ events s' = [Malloc 64; EngineInit; EngineConfig]
    /\ ~ engine_state_invariant s'.
Proof.
  eexists. split; [vm_compute; reflexivity|].
  split; [reflexivity|]. split; [eexists; reflexivity|].
  split; [reflexivity|].
  intros [Hinv _]. discriminate Hinv. eexists; reflexivity.
Qed.

(** C2, as stated, fails: a [start] does not leave a pool whose one buffer
    has a capacity of 2 * 2048 * 2 = 8192 bytes. *)
Lemma start_pool_capacity_is_not_8192 :
  ~ (forall (E : Env) params (s : AACDecoder E) st s',
       start E params s = Returns (st, s') ->
       exists b, pool_buffers s' = Some [b] /\ mSize b = 2 * 2048 * 2).
Proof.
  intros H.
  pose (E := Scenario.env Scenario.format_44100 [] 0 []).
  destruct (H E None (AACDecoder_new E 0%nat Scenario.garbage)
              OK _ eq_refl) as (b & Hb & Hsize).
  vm_compute in Hb. injection Hb as <-. vm_compute in Hsize. discriminate.
Qed.

(** C2 (amended): every [start] that returns, with either status, leaves a
    pool of exactly one buffer, free, whose capacity is 2048 * 2 = 4096
    bytes: 2048 samples of 16 bits, that is 1024 frames of two channels. *)
Theorem start_allocates_one_buffer_of_4096 :
  forall (E : Env) params (s : AACDecoder E) st s',
    start E params s = Returns (st, s') ->
    exists b,
      mBufferGroup s' = Some [MediaBufferGroup.mkSlot b false]
      /\ pool_buffers s' = Some [b]
      /\ mSize b = 2048 * 2
      /\ mSize b = 4096
      /\ mSize b = 1024 * 2 * 2
      /\ length (mData b) = 4096%nat
      /\ mRangeOffset b = 0 /\ mRangeLength b = 4096.
Proof.
  intros E params s st s' H. apply start_pool in H.
  exists (MediaBuffer_new 4096). unfold pool_buffers. rewrite H.
  repeat split; reflexivity.
Qed.

Lemma start_allocates_one_buffer_of_4096_witness :
  let E := Scenario.env Scenario.format_44100 [] 0 [] in
  exists s' b,
    start E None (AACDecoder_new E 0%nat Scenario.garbage) = Returns (OK, s')
    /\ mBufferGroup s' = Some [MediaBufferGroup.mkSlot b false]
    /\ mSize b = 4096.
Proof.
  intros E.
  destruct (start_allocates_one_buffer_of_4096 E None
              (AACDecoder_new E 0%nat Scenario.garbage) OK _ eq_refl)
    as (b & Hg & _ & _ & Hsize & _).
  eexists _, b. split; [reflexivity|]. split; [exact Hg | exact Hsize].
Defined.

(** ** [getFormat] *)

(** C9: on a source whose format carries a sample rate, [getFormat] returns
    a descriptor with the MIME type of raw audio, a channel count of 2
    whatever the format of the source says about channels, the sample rate
    of the source, the duration of the source exactly when the source has
    one, and the name of the component; the stage is left as it was. *)
Theorem getFormat_reports_stereo_pcm :
  forall (E : Env) (s : AACDecoder E) (sampleRate : Z),
    MetaData.findInt32 kKeySampleRate (src_getFormat E (mSource s))
      = Some sampleRate ->
    exists meta,
      getFormat E s = Returns (meta, s)
      /\ MetaData.findCString kKeyMIMEType meta = Some MEDIA_MIMETYPE_AUDIO_RAW
      /\ MetaData.findInt32 kKeyChannelCount meta = Some 2
      /\ MetaData.findInt32 kKeySampleRate meta = Some sampleRate
      /\ meta !! kKeyDuration
         = Int64Item <$> MetaData.findInt64 kKeyDuration
                           (src_getFormat E (mSource s))
      /\ MetaData.findCString kKeyDecoderComponent meta = Some "AACDecoder"
      /\ meta !! kKeyTime = None /\ meta !! kKeyESDS = None.
Proof.
  intros E s sampleRate Hrate. unfold getFormat. rewrite Hrate.
  eexists. split; [reflexivity|].
  unfold MetaData.findCString, MetaData.findInt32, MetaData.setCString,
    MetaData.setInt32, MetaData.setInt64, MetaData.empty.
  destruct (MetaData.findInt64 kKeyDuration _) as [d|]; simpl;
    repeat split; by simplify_map_eq.
Qed.

Lemma getFormat_reports_stereo_pcm_witness :
  let E := Scenario.env Scenario.format_esds [] 0 [] in
  let s := AACDecoder_new E 0%nat Scenario.garbage in
  MetaData.findInt32 kKeyChannelCount (src_getFormat E (mSource s)) = Some 1
  /\ exists meta,
       getFormat E s = Returns (meta, s)
       /\ MetaData.findInt32 kKeyChannelCount meta = Some 2
       /\ MetaData.findInt32 kKeySampleRate meta = Some 44100
       /\ meta !! kKeyDuration = Some (Int64Item 5000000).
Proof.
  intros E s. split; [vm_compute; reflexivity|].
  destruct (getFormat_reports_stereo_pcm E s 44100 eq_refl)
    as (meta & Hget & _ & Hch & Hrate & Hdur & _).
  exists meta. repeat split; assumption.
Defined.

(** ** [read]: the seek block and the pull from the source *)

Section ReadBlocks.

Variable E : Env.
Implicit Types s : AACDecoder E.

Lemma release_input_events s :
  events (release_input s) = events s ++ released s.
Proof.
  unfold release_input, released.
  destruct (mInputBuffer s); simpl; [reflexivity|]. by rewrite app_nil_r.
Qed.

Lemma release_input_clears s : mInputBuffer (release_input s) = None.
Proof. unfold release_input. by destruct (mInputBuffer s) eqn:H. Qed.

Lemma read_seek_none options s :
  options ≫= getSeekTo = None -> read_seek E options s = Returns (-1, s).
Proof. unfold read_seek. by intros ->. Qed.

Lemma read_seek_some options s t :
  options ≫= getSeekTo = Some t -> 0 <= t ->
  read_seek E options s = Returns (t, release_input (with_samples 0 s)).
Proof.
  unfold read_seek, CHECK. intros -> Ht.
  destruct (Z.leb_spec 0 t); [reflexivity | lia].
Qed.

Lemma read_seek_negative options s t :
  options ≫= getSeekTo = Some t -> t < 0 -> read_seek E options s = Aborts.
Proof.
  unfold read_seek, CHECK. intros -> Ht.
  destruct (Z.leb_spec 0 t); [lia | reflexivity].
Qed.

(** The seek block touches the sample count and the input buffer only. *)
Lemma read_seek_frame options s seek s1 :
  read_seek E options s = Returns (seek, s1) ->
  mSource s1 = mSource s /\ mStarted s1 = mStarted s
  /\ mBufferGroup s1 = mBufferGroup s /\ mConfig s1 = mConfig s
  /\ mDecoderBuf s1 = mDecoderBuf s /\ mAnchorTimeUs s1 = mAnchorTimeUs s
  /\ (events s1 = events s
      \/ exists b, mInputBuffer s = Some b
                   /\ events s1 = events s ++ [BufferReleased b]).
Proof.
  unfold read_seek, CHECK.
  destruct (options ≫= getSeekTo) as [t|]; simpl.
  - destruct (0 <=? t); simpl; [|discriminate]. intros [= <- <-].
    unfold release_input. simpl.
    destruct (mInputBuffer s) as [b|] eqn:Hb; simpl; repeat split; eauto.
  - intros [= <- <-]. repeat split; eauto.
Qed.

(** What the pull returns early with is what the source returned. *)
Lemma read_fetch_early options seek s err s2 :
  read_fetch E options seek s = Returns (Some err, s2) ->
  mInputBuffer s = None /\ err <> OK
  /\ exists src' unit,
       src_read E (mSource s) options = (src', err, unit)
       /\ s2 = with_input unit (with_source src' (emit (SourceRead options) s)).
Proof.
  unfold read_fetch, CHECK, deref.
  destruct (mInputBuffer s) eqn:Hin; [discriminate|].
  destruct (src_read E (mSource s) options) as [[src' err'] unit] eqn:Hsrc.
  simpl. destruct (Z.eqb_spec err' OK); simpl.
  - destruct unit as [u|]; simpl; [|discriminate].
    destruct (MetaData.findInt64 kKeyTime _); simpl; [discriminate|].
    destruct (seek <? 0); discriminate.
  - intros [= <- <-]. eauto 10.
Qed.

(** With an input buffer in hand nothing is pulled. *)
Lemma read_fetch_pending options seek s b :
  mInputBuffer s = Some b -> read_fetch E options seek s = Returns (None, s).
Proof. unfold read_fetch. by intros ->. Qed.

(** The events of a pull that goes on to the decode. *)
Lemma read_fetch_continue_events options seek s s2 :
  read_fetch E options seek s = Returns (None, s2) ->
  is_Some (mInputBuffer s2)
  /\ mBufferGroup s2 = mBufferGroup s /\ mConfig s2 = mConfig s
  /\ mDecoderBuf s2 = mDecoderBuf s
  /\ ((is_Some (mInputBuffer s) /\ s2 = s)
      \/ (mInputBuffer s = None
          /\ events s2 = events s ++ [SourceRead options])).
Proof.
  unfold read_fetch, CHECK, deref.
  destruct (mInputBuffer s) eqn:Hin.
  { intros [= <-]. rewrite Hin. eauto 10. }
  destruct (src_read E (mSource s) options) as [[src' err'] unit] eqn:Hsrc.
  simpl. destruct (Z.eqb_spec err' OK); simpl; [|discriminate].
  destruct unit as [u|]; simpl; [|discriminate].
  destruct (MetaData.findInt64 kKeyTime _); simpl.
  - intros [= <-]. simpl. eauto 10.
  - destruct (seek <? 0); simpl; [|discriminate].
    intros [= <-]. simpl. eauto 10.
Qed.

End ReadBlocks.

(** ** [read]: the decode block *)

Section DecodeBlock.

Variable E : Env.
Implicit Types s : AACDecoder E.

Lemma release_input_frame s :
  mSource (release_input s) = mSource s
  /\ mStarted (release_input s) = mStarted s
  /\ mBufferGroup (release_input s) = mBufferGroup s
  /\ mConfig (release_input s) = mConfig s
  /\ mDecoderBuf (release_input s) = mDecoderBuf s
  /\ mAnchorTimeUs (release_input s) = mAnchorTimeUs s
  /\ mNumSamplesOutput (release_input s) = mNumSamplesOutput s.
Proof. unfold release_input. by destruct (mInputBuffer s). Qed.

Lemma substitute_silence_frame decoderErr n buffer s b1 s1 :
  substitute_silence decoderErr n buffer s = Returns (b1, s1) ->
  mSource s1 = mSource s /\ mStarted s1 = mStarted s
  /\ mBufferGroup s1 = mBufferGroup s /\ mConfig s1 = mConfig s
  /\ mDecoderBuf s1 = mDecoderBuf s /\ mAnchorTimeUs s1 = mAnchorTimeUs s
  /\ mNumSamplesOutput s1 = mNumSamplesOutput s.
Proof.
  unfold substitute_silence, memset_zero.
  destruct (negb _); simpl.
  - destruct (n <=? mSize buffer); simpl; [|discriminate].
    intros [= <- <-]. apply release_input_frame.
  - intros [= <- <-]. done.
Qed.

Lemma advance_input_frame c s :
  mSource (advance_input c s) = mSource s
  /\ mStarted (advance_input c s) = mStarted s
  /\ mBufferGroup (advance_input c s) = mBufferGroup s
  /\ mConfig (advance_input c s) = mConfig s
  /\ mDecoderBuf (advance_input c s) = mDecoderBuf s
  /\ mAnchorTimeUs (advance_input c s) = mAnchorTimeUs s
  /\ mNumSamplesOutput (advance_input c s) = mNumSamplesOutput s.
Proof.
  unfold advance_input. destruct (mInputBuffer s); [|done].
  simpl. destruct (_ =? 0); [|done].
  match goal with
  | |- context [release_input ?x] => exact (release_input_frame x)
  end.
Qed.

(** [read_decode] returns exactly when the pool hands out a buffer, an input
    buffer and the scratch memory are held, the silence (if any) fits the
    buffer and the division of the time stamp is defined; its result is then
    the composition of the blocks of the source. *)
Lemma read_decode_returns_iff s b s' :
  read_decode E s = Returns (b, s') <->
  exists group slot buffer group' input scratch b1 s1 timeUs,
    mBufferGroup s = Some group
    /\ MediaBufferGroup.acquire_buffer group = (OK, Some (slot, buffer), group')
    /\ mInputBuffer s = Some input
    /\ mDecoderBuf s = Some scratch
    /\ let r := PVMP4AudioDecodeFrame E
                  (decode_call input buffer (mConfig s)) scratch in
       let n := numOutBytes (dr_config r) in
       substitute_silence (dr_status r) n (set_data (dr_output r) buffer)
         (after_decode_step s group' input buffer r) = Returns (b1, s1)
       /\ timestamp (mAnchorTimeUs s1) (mNumSamplesOutput s1)
            (samplingRate (dr_config r)) = Some timeUs
       /\ b = set_meta (MetaData.setInt64 kKeyTime timeUs (mMetaData b1))
                (set_range 0 n b1)
       /\ s' = (let s2 := advance_input (dr_config r) s1 in
                let s3 := with_samples
                            (int64_add (mNumSamplesOutput s2)
                               (frameLength (dr_config r))) s2 in
                with_group (MediaBufferGroup.store slot b <$> mBufferGroup s3)
                  s3).
Proof.
  unfold read_decode, deref, CHECK. split.
  - destruct (mBufferGroup s) as [group|] eqn:Hg; simpl; [|discriminate].
    destruct (MediaBufferGroup.acquire_buffer group)
      as [[rc acquired] group'] eqn:Hacq.
    simpl. destruct (Z.eqb_spec rc OK) as [->|]; simpl; [|discriminate].
    destruct acquired as [[slot buffer]|]; simpl; [|discriminate].
    destruct (mInputBuffer s) as [input|] eqn:Hin; simpl; [|discriminate].
    destruct (mDecoderBuf s) as [scratch|] eqn:Hbuf; simpl; [|discriminate].
    fold (after_decode_step s group' input buffer
            (PVMP4AudioDecodeFrame E (decode_call input buffer (mConfig s))
               scratch)).
    set (r := PVMP4AudioDecodeFrame E _ scratch).
    destruct (substitute_silence _ _ _ _) as [[b1 s1]| |] eqn:Hsil;
      simpl; try discriminate.
    pose proof (substitute_silence_frame _ _ _ _ _ _ Hsil)
      as (_ & _ & _ & Hc1 & _ & _ & _).
    pose proof (advance_input_frame (mConfig s1) s1)
      as (_ & _ & _ & Hc2 & _ & Ha2 & Hn2).
    rewrite Ha2, Hn2, Hc2, Hc1. simpl.
    destruct (timestamp _ _ _) as [timeUs|] eqn:Ht; simpl; [|discriminate].
    intros [= <- <-].
    exists group, slot, buffer, group', input, scratch, b1, s1, timeUs.
    repeat split; try done.
    subst r. simpl in Hc1. rewrite Hc1 in Hn2. by rewrite Hn2.
  - intros (group & slot & buffer & group' & input & scratch & b1 & s1
            & timeUs & Hg & Hacq & Hin & Hbuf & Hsil & Ht & -> & ->).
    rewrite Hg. simpl. rewrite Hacq. simpl. rewrite Hin, Hbuf. simpl.
    fold (after_decode_step s group' input buffer
            (PVMP4AudioDecodeFrame E (decode_call input buffer (mConfig s))
               scratch)).
    rewrite Hsil. simpl.
    pose proof (substitute_silence_frame _ _ _ _ _ _ Hsil)
      as (_ & _ & _ & Hc1 & _ & _ & _).
    pose proof (advance_input_frame (mConfig s1) s1)
      as (_ & _ & _ & Hc2 & _ & Ha2 & Hn2).
    rewrite Ha2, Hn2, Hc2, Hc1. simpl. rewrite Ht. simpl.
    simpl in Hc1. rewrite Hc1 in Hn2. by rewrite Hn2.
Qed.


Lemma substitute_silence_success n buffer s :
  substitute_silence MP4AUDEC_SUCCESS n buffer s = Returns (buffer, s).
Proof. reflexivity. Qed.

Lemma substitute_silence_events decoderErr n buffer s b1 s1 :
  substitute_silence decoderErr n buffer s = Returns (b1, s1) ->
  exists rest, events s1 = events s ++ rest.
Proof.
  unfold substitute_silence, memset_zero. destruct (negb _); simpl.
  - destruct (n <=? mSize buffer); simpl; [|discriminate].
    intros [= <- <-]. rewrite release_input_events. eauto.
  - intros [= <- <-]. exists []. by rewrite app_nil_r.
Qed.

Lemma advance_input_events c s :
  exists rest, events (advance_input c s) = events s ++ rest.
Proof.
  unfold advance_input. destruct (mInputBuffer s).
  - destruct (_ =? 0).
    + rewrite release_input_events. simpl. eauto.
    + exists []. simpl. by rewrite app_nil_r.
  - exists []. by rewrite app_nil_r.
Qed.

(** The decode block only adds to the record of calls, starting with the
    acquisition of the output buffer and the decode step. *)
Lemma read_decode_events s b s' :
  read_decode E s = Returns (b, s') ->
  exists rest, events s' = events s ++ BufferAcquired :: EngineDecode :: rest.
Proof.
  intros H. apply read_decode_returns_iff in H
    as (group & slot & buffer & group' & input & scratch & b1 & s1
        & timeUs & _ & _ & _ & _ & Hsil & _ & _ & ->).
  apply substitute_silence_events in Hsil as [rest1 Hsil].
  destruct (advance_input_events
              (dr_config (PVMP4AudioDecodeFrame E
                            (decode_call input buffer (mConfig s)) scratch))
              s1) as [rest2 Hadv].
  exists (rest1 ++ rest2). simpl. rewrite Hadv, Hsil. simpl.
  by rewrite <- !app_assoc.
Qed.

(** [numOutBytes] is the product of the frame length, two bytes and the
    channel count, as a [size_t]. *)
Lemma numOutBytes_product c :
  numOutBytes c = to_size_t (frameLength c * 2 * desiredChannels c).
Proof.
  unfold numOutBytes, size_mul, to_size_t, wrap_unsigned.
  rewrite <- Zmult_mod, <- Z.mul_assoc, Zmult_mod_idemp_l, Z.mul_assoc.
  reflexivity.
Qed.

(** A positive sampling rate makes the time stamp defined. *)
Lemma timestamp_defined anchor samples rate :
  0 < rate ->
  timestamp anchor samples rate
  = Some (int64_add anchor (int64_mul samples 1000000 ÷ rate)).
Proof.
  intros Hrate. unfold timestamp.
  rewrite int64_div_defined by lia. reflexivity.
Qed.

Lemma timestamp_Some anchor samples rate t :
  timestamp anchor samples rate = Some t ->
  rate <> 0 /\ t = int64_add anchor (int64_mul samples 1000000 ÷ rate).
Proof.
  unfold timestamp. destruct (int64_div _ _) as [q|] eqn:Hq; [|discriminate].
  apply int64_div_Some in Hq as [Hr ->]. intros [= <-]. done.
Qed.

End DecodeBlock.

(** ** [read] *)

Section Read.

Variable E : Env.
Implicit Types s : AACDecoder E.

(** A [read] whose first two blocks went through is its decode block. *)
Lemma read_decodes out options s seek s1 s2 :
  read_seek E options s = Returns (seek, s1) ->
  read_fetch E options seek s1 = Returns (None, s2) ->
  read E out options s
  = '(buffer, s') ← read_decode E s2; Returns (OK, Some buffer, s').
Proof. intros H1 H2. unfold read. rewrite H1. simpl. by rewrite H2. Qed.

(** The ways in which [read] returns. *)
Lemma read_returns_inv out options s st o s' :
  read E out options s = Returns (st, o, s') ->
  exists seek s1,
    read_seek E options s = Returns (seek, s1)
    /\ ((st <> OK /\ o = None
         /\ read_fetch E options seek s1 = Returns (Some st, s'))
        \/ (exists s2 b,
              st = OK /\ o = Some b
              /\ read_fetch E options seek s1 = Returns (None, s2)
              /\ read_decode E s2 = Returns (b, s'))).
Proof.
  unfold read.
  destruct (read_seek E options s) as [[seek s1]| |] eqn:Hseek;
    simpl; try discriminate.
  destruct (read_fetch E options seek s1) as [[[err|] s2]| |] eqn:Hfetch;
    simpl; try discriminate.
  - intros [= <- <- <-]. exists seek, s1. split; [done|]. left.
    apply read_fetch_early in Hfetch as Hearly.
    destruct Hearly as (_ & Herr & _). done.
  - destruct (read_decode E s2) as [[b s3]| |] eqn:Hdec;
      simpl; try discriminate.
    intros [= <- <- <-]. exists seek, s1. split; [done|]. right.
    exists s2, b. done.
Qed.

Lemma read_seek_events options s seek s1 :
  read_seek E options s = Returns (seek, s1) ->
  events s1 = events s ++ seek_released options s.
Proof.
  unfold read_seek, seek_released, CHECK.
  destruct (options ≫= getSeekTo) as [t|]; simpl.
  - destruct (0 <=? t); simpl; [|discriminate]. intros [= <- <-].
    by rewrite release_input_events.
  - intros [= <- <-]. by rewrite app_nil_r.
Qed.

Lemma events_since_app s s' l :
  events s' = events s ++ l -> events_since s s' = l.
Proof. unfold events_since. intros ->. by rewrite drop_app_length. Qed.

Lemma seek_released_only options s e :
  e ∈ seek_released options s -> exists b, e = BufferReleased b.
Proof.
  unfold seek_released, released.
  destruct (options ≫= getSeekTo); [|by intros ?%elem_of_nil].
  destruct (mInputBuffer s) as [b|]; [|by intros ?%elem_of_nil].
  intros ->%list_elem_of_singleton. eauto.
Qed.

End Read.

(** C5: when no input buffer is held once the seek is handled and the read
    of the source returns a status other than [OK], [read] returns that
    status at once: the output stays null, the only call made is the read of
    the source, no buffer is acquired from the pool and the decode step is
    not invoked; the pool, the interface record and the scratch memory are
    as before the call. *)
Theorem read_propagates_source_error :
  forall (E : Env) out options (s : AACDecoder E) seek s1 src' err unit,
    read_seek E options s = Returns (seek, s1) ->
    mInputBuffer s1 = None ->
    src_read E (mSource s1) options = (src', err, unit) ->
    err <> OK ->
    exists s',
      read E out options s = Returns (err, None, s')
      /\ events_since s s' = seek_released options s ++ [SourceRead options]
      /\ (BufferAcquired ∉ events_since s s')
      /\ (EngineDecode ∉ events_since s s')
      /\ mBufferGroup s' = mBufferGroup s
      /\ mConfig s' = mConfig s
      /\ mDecoderBuf s' = mDecoderBuf s
      /\ mSource s' = src'
      /\ mInputBuffer s' = unit.
Proof.
  intros E out options s seek s1 src' err unit Hseek Hin Hsrc Herr.
  pose proof (read_seek_frame E _ _ _ _ Hseek)
    as (_ & _ & Hg & Hc & Hb & _ & _).
  pose proof (read_seek_events E _ _ _ _ Hseek) as Hev.
  exists (with_input unit (with_source src' (emit (SourceRead options) s1))).
  assert (Hsince :
    events_since s
      (with_input unit (with_source src' (emit (SourceRead options) s1)))
    = seek_released options s ++ [SourceRead options]).
  { apply events_since_app. simpl. rewrite Hev. by rewrite <- app_assoc. }
  split.
  { unfold read. rewrite Hseek. simpl. unfold read_fetch.
    rewrite Hin, Hsrc. destruct (Z.eqb_spec err OK); [done|]. reflexivity. }
  split; [exact Hsince|]. rewrite Hsince.
  split.
  { intros [Hel|Hel%list_elem_of_singleton]%elem_of_app; [|discriminate].
    apply seek_released_only in Hel as [b Hb']. discriminate. }
  split.
  { intros [Hel|Hel%list_elem_of_singleton]%elem_of_app; [|discriminate].
    apply seek_released_only in Hel as [b Hb']. discriminate. }
  simpl. done.
Qed.

Lemma read_propagates_source_error_witness :
  exists s',
    read Scenario.drained (Some (Scenario.unit_of [] None)) None
      Scenario.started_drained
    = Returns (Scenario.ERROR_END_OF_STREAM, None, s')
    /\ events_since Scenario.started_drained s' = [SourceRead None]
    /\ mBufferGroup s' = mBufferGroup Scenario.started_drained.
Proof.
  destruct (read_propagates_source_error Scenario.drained
              (Some (Scenario.unit_of [] None)) None Scenario.started_drained
              (-1) Scenario.started_drained 0%nat
              Scenario.ERROR_END_OF_STREAM None)
    as (s' & Hread & Hev & _ & _ & Hg & _).
  - reflexivity.
  - reflexivity.
  - reflexivity.
  - discriminate.
  - exists s'. split; [exact Hread|]. split; [exact Hev | exact Hg].
Defined.

(** C10: [read] nulls its output before anything else, so what the caller's
    variable held on entry is never seen again; a [read] that returns a
    status other than [OK] (it is then the status the source returned, the
    stage holding no input buffer) returns a null output, and a non-null
    output comes with [OK] only. *)
Theorem read_error_leaves_output_null :
  forall (E : Env) out options (s : AACDecoder E) st o s',
    read E out options s = Returns (st, o, s') ->
    st <> OK ->
    o = None
    /\ read E None options s = Returns (st, None, s')
    /\ exists seek s1 src' unit,
         read_seek E options s = Returns (seek, s1)
         /\ mInputBuffer s1 = None
         /\ src_read E (mSource s1) options = (src', st, unit).
Proof.
  intros E out options s st o s' Hread Hst.
  apply read_returns_inv in Hread as Hinv.
  destruct Hinv as (seek & s1 & Hseek & [(_ & -> & Hfetch) | Hok]).
  - split; [reflexivity|]. split; [exact Hread|].
    apply read_fetch_early in Hfetch as (Hin & _ & src' & unit & Hsrc & _).
    by exists seek, s1, src', unit.
  - destruct Hok as (s2 & b & -> & _). done.
Qed.

Lemma read_error_leaves_output_null_witness :
  exists st s',
    read Scenario.drained (Some (Scenario.unit_of Scenario.ten_bytes None))
      None Scenario.started_drained = Returns (st, None, s')
    /\ st = Scenario.ERROR_END_OF_STREAM.
Proof.
  exists Scenario.ERROR_END_OF_STREAM.
  eexists. split; [|reflexivity].
  assert (Hread :
    read Scenario.drained (Some (Scenario.unit_of Scenario.ten_bytes None))
      None Scenario.started_drained
    = Returns (Scenario.ERROR_END_OF_STREAM, None,
               with_input None
                 (with_source (E:=Scenario.drained) 0%nat
                    (emit (SourceRead None) Scenario.started_drained))))
    by reflexivity.
  destruct (read_error_leaves_output_null Scenario.drained _ _ _ _ _ _ Hread)
    as (_ & _ & _).
  - discriminate.
  - exact Hread.
Defined.

(** The output is never what the caller passed in. *)
Lemma read_ignores_output_on_entry (E : Env) out options (s : AACDecoder E) :
  read E out options s = read E None options s.
Proof. reflexivity. Qed.

(** C7: on a [read] whose options carry a seek to [t]: a negative [t] is
    fatal; otherwise the seek block sets the sample count to 0 and releases
    the input buffer if one is held, leaving none, and only then is the
    source read, with the same options: the record of the calls of the
    [read] starts with that release followed by the read of the source. *)
Theorem read_seek_resets_before_pull :
  forall (E : Env) out options (s : AACDecoder E) t,
    options ≫= getSeekTo = Some t ->
    (t < 0 -> read E out options s = Aborts)
    /\ (0 <= t ->
        exists s1,
          read_seek E options s = Returns (t, s1)
          /\ s1 = release_input (with_samples 0 s)
          /\ mNumSamplesOutput s1 = 0
          /\ mInputBuffer s1 = None
          /\ mSource s1 = mSource s
          /\ events s1 = events s ++ released s
          /\ (forall st o s',
                read E out options s = Returns (st, o, s') ->
                exists rest,
                  events_since s s'
                  = released s ++ SourceRead options :: rest)).
Proof.
  intros E out options s t Hopt. split.
  - intros Ht. unfold read.
    by rewrite (read_seek_negative E _ _ _ Hopt Ht).
  - intros Ht. pose proof (read_seek_some E _ s _ Hopt Ht) as Hseek.
    exists (release_input (with_samples 0 s)).
    split; [exact Hseek|]. split; [reflexivity|].
    pose proof (release_input_frame E (with_samples 0 s))
      as (Hsrc & _ & _ & _ & _ & _ & Hn).
    split; [exact Hn|]. split; [apply release_input_clears|].
    split; [exact Hsrc|].
    split; [apply (release_input_events E (with_samples 0 s))|].
    intros st o s' Hread.
    apply read_returns_inv in Hread
      as (seek & s1 & Hseek' & [(_ & _ & Hfetch) | Hok]);
      rewrite Hseek in Hseek'; injection Hseek' as <- <-.
    + apply read_fetch_early in Hfetch as (_ & _ & src' & unit & _ & ->).
      exists []. apply events_since_app. simpl.
      rewrite (release_input_events E (with_samples 0 s)). simpl.
      by rewrite <- app_assoc.
    + destruct Hok as (s2 & b & _ & _ & Hfetch & Hdec).
      apply read_decode_events in Hdec as [rest Hdec].
      apply read_fetch_continue_events in Hfetch
        as (_ & _ & _ & _ & [[Hsome _] | [_ Hev]]).
      { rewrite release_input_clears in Hsome. by destruct Hsome. }
      exists (BufferAcquired :: EngineDecode :: rest).
      apply events_since_app. rewrite Hdec, Hev.
      rewrite (release_input_events E (with_samples 0 s)). simpl.
      by rewrite <- !app_assoc.
Qed.

Lemma read_seek_resets_before_pull_witness :
  let E := Scenario.player (Some 500000) in
  let s := Scenario.read1 (Some 500000) in
  is_Some (mInputBuffer s)
  /\ mNumSamplesOutput s = 1024
  /\ (exists s1,
        read_seek E (Scenario.seek 1000) s = Returns (1000, s1)
        /\ mNumSamplesOutput s1 = 0
        /\ mInputBuffer s1 = None)
  /\ read E None (Scenario.seek (-5)) s = Aborts.
Proof.
  intros E s.
  split; [vm_compute; eauto|]. split; [vm_compute; reflexivity|].
  split.
  - destruct (read_seek_resets_before_pull E None (Scenario.seek 1000) s 1000
                eq_refl) as [_ Hpos].
    destruct Hpos as (s1 & Hseek & _ & Hn & Hin & _); [lia|].
    exists s1. done.
  - destruct (read_seek_resets_before_pull E None (Scenario.seek (-5)) s (-5)
                eq_refl) as [Hneg _].
    apply Hneg. lia.
Defined.

(** C8: when [read] pulls a unit from the source (no input buffer is held
    once the seek is handled, and the source returns [OK] with a unit): a
    unit that carries a time makes that time the anchor and resets the
    sample count to 0; a unit without a time leaves both as they are when
    the options carry no seek, and is fatal when they carry one.  With a
    source that stamps the unit it lands on after a seek, the pull never
    fails that assertion. *)
Theorem read_fetch_anchors_on_timestamp :
  (forall (E : Env) out options (s0 : AACDecoder E) seek s src' unit,
     read_seek E options s0 = Returns (seek, s) ->
     mInputBuffer s = None ->
     src_read E (mSource s) options = (src', OK, Some unit) ->
     let s1 :=
       with_input (Some unit)
         (with_source src' (emit (SourceRead options) s)) in
     (forall timeUs,
        MetaData.findInt64 kKeyTime (mMetaData unit) = Some timeUs ->
        exists s2,
          read_fetch E options seek s = Returns (None, s2)
          /\ s2 = with_samples 0 (with_anchor timeUs s1)
          /\ mAnchorTimeUs s2 = timeUs
          /\ mNumSamplesOutput s2 = 0
          /\ mInputBuffer s2 = Some unit)
     /\ (MetaData.findInt64 kKeyTime (mMetaData unit) = None ->
         options ≫= getSeekTo = None ->
         read_fetch E options seek s = Returns (None, s1)
         /\ mAnchorTimeUs s1 = mAnchorTimeUs s0
         /\ mNumSamplesOutput s1 = mNumSamplesOutput s0)
     /\ (MetaData.findInt64 kKeyTime (mMetaData unit) = None ->
         is_Some (options ≫= getSeekTo) ->
         read_fetch E options seek s = Aborts
         /\ read E out options s0 = Aborts))
  /\ (forall (E : Env) options (s0 : AACDecoder E) seek s,
        stamps_after_seek E ->
        read_seek E options s0 = Returns (seek, s) ->
        read_fetch E options seek s <> Aborts).
Proof.
  split.
  - intros E out options s0 seek s src' unit Hseek Hin Hsrc s1.
    assert (Hfetch :
      read_fetch E options seek s
      = match MetaData.findInt64 kKeyTime (mMetaData unit) with
        | Some timeUs => Returns (None, with_samples 0 (with_anchor timeUs s1))
        | None => _ ← CHECK (seek <? 0); Returns (None, s1)
        end).
    { unfold read_fetch. rewrite Hin, Hsrc. simpl.
      by destruct (MetaData.findInt64 kKeyTime (mMetaData unit)). }
    split; [|split].
    + intros timeUs Ht. rewrite Ht in Hfetch. eauto 10.
    + intros Ht Hno. rewrite Ht in Hfetch.
      rewrite (read_seek_none E _ _ Hno) in Hseek.
      injection Hseek as <- <-. done.
    + intros Ht [t Hsome]. rewrite Ht in Hfetch.
      revert Hseek. unfold read_seek, CHECK. rewrite Hsome.
      destruct (Z.leb_spec 0 t); simpl; [|discriminate].
      intros Hseek. injection Hseek as <- <-.
      assert (Hab : read_fetch E options t
                      (release_input (with_samples 0 s0)) = Aborts).
      { rewrite Hfetch. unfold CHECK.
        destruct (Z.ltb_spec t 0); [lia | reflexivity]. }
      split; [exact Hab|].
      unfold read. rewrite (read_seek_some E _ s0 _ Hsome) by lia.
      simpl. by rewrite Hab.
  - intros E options s0 seek s Hstamp Hseek.
    unfold read_fetch, deref, CHECK.
    destruct (mInputBuffer s) eqn:Hin; [discriminate|].
    destruct (src_read E (mSource s) options) as [[src' err] unit] eqn:Hsrc.
    simpl. destruct (Z.eqb_spec err OK) as [->|]; simpl; [|discriminate].
    destruct unit as [u|]; simpl; [|discriminate].
    destruct (MetaData.findInt64 kKeyTime (mMetaData u)) eqn:Ht;
      simpl; [discriminate|].
    destruct (options ≫= getSeekTo) as [t|] eqn:Hopt.
    + destruct (Hstamp _ _ _ _ _ Hopt Hsrc) as [? Hsome]. congruence.
    + rewrite (read_seek_none E _ _ Hopt) in Hseek.
      injection Hseek as <- <-. discriminate.
Qed.

Lemma player_stamps_after_seek t :
  stamps_after_seek (Scenario.player (Some t)).
Proof.
  intros src src' options seekTimeUs unit _.
  destruct src as [|[|src]]; simpl; intros [= <- <-]; eexists; reflexivity.
Qed.

Lemma read_fetch_anchors_on_timestamp_witness :
  (let E := Scenario.player (Some 500000) in
   let s := Scenario.read2 (Some 500000) in
   mNumSamplesOutput s = 2048
   /\ (exists s2,
         read_fetch E None (-1) s = Returns (None, s2)
         /\ mAnchorTimeUs s2 = 500000
         /\ mNumSamplesOutput s2 = 0)
   /\ read_fetch E (Scenario.seek 1000) 1000
        (release_input (with_samples 0 s)) <> Aborts)
  /\ read (Scenario.player None) None (Scenario.seek 1000)
       (Scenario.read2 None) = Aborts.
Proof.
  destruct read_fetch_anchors_on_timestamp as [Hpull Hstamped].
  split; [split; [|split]|].
  - vm_compute. reflexivity.
  - destruct (Hpull (Scenario.player (Some 500000)) None None
                (Scenario.read2 (Some 500000)) (-1)
                (Scenario.read2 (Some 500000)) 2%nat
                (Scenario.unit_of Scenario.ten_bytes (Some 500000)))
      as (Hstamp & _ & _).
    + reflexivity.
    + vm_compute. reflexivity.
    + vm_compute. reflexivity.
    + destruct (Hstamp 500000) as (s2 & Hfetch & _ & Ha & Hn & _).
      * reflexivity.
      * exists s2. split; [exact Hfetch|]. split; [exact Ha | exact Hn].
  - apply (Hstamped (Scenario.player (Some 500000)) (Scenario.seek 1000)
             (Scenario.read2 (Some 500000))).
    + apply player_stamps_after_seek.
    + reflexivity.
  - destruct (Hpull (Scenario.player None) None (Scenario.seek 1000)
                (Scenario.read2 None) 1000
                (release_input (with_samples 0 (Scenario.read2 None))) 2%nat
                (Scenario.unit_of Scenario.ten_bytes None))
      as (_ & _ & Hfatal).
    + reflexivity.
    + vm_compute. reflexivity.
    + vm_compute. reflexivity.
    + apply Hfatal; [reflexivity | eexists; reflexivity].
Defined.

(** ** [read]: what a decoded frame leaves behind *)


(** The time stamp and the sample count that the decode block leaves. *)
Lemma read_decode_stamp (E : Env) (s : AACDecoder E) b s' :
  read_decode E s = Returns (b, s') ->
  exists c m timeUs,
    mConfig s' = dr_config (PVMP4AudioDecodeFrame E c m)
    /\ timestamp (mAnchorTimeUs s) (mNumSamplesOutput s)
         (samplingRate (mConfig s')) = Some timeUs
    /\ MetaData.findInt64 kKeyTime (mMetaData b) = Some timeUs
    /\ mNumSamplesOutput s'
       = int64_add (mNumSamplesOutput s) (frameLength (mConfig s'))
    /\ mAnchorTimeUs s' = mAnchorTimeUs s.
Proof.
  intros Hdec. apply read_decode_returns_iff in Hdec
    as (group & slot & buffer & group' & input & scratch & b1 & s1
        & timeUs & _ & _ & _ & _ & Hsil & Ht & -> & Hs').
  set (r := PVMP4AudioDecodeFrame E (decode_call input buffer (mConfig s))
              scratch) in *.
  pose proof (substitute_silence_frame E _ _ _ _ _ _ Hsil)
    as (_ & _ & _ & Hc1 & _ & Ha1 & Hn1).
  pose proof (advance_input_frame E (dr_config r) s1)
    as (_ & _ & _ & Hc2 & _ & Ha2 & Hn2).
  simpl in Hc1, Ha1, Hn1.
  assert (Hcfg : mConfig s' = dr_config r)
    by (rewrite Hs'; simpl; congruence).
  exists (decode_call input buffer (mConfig s)), scratch, timeUs.
  split; [exact Hcfg|]. rewrite Hcfg.
  split; [congruence|].
  split.
  { unfold MetaData.findInt64, MetaData.setInt64. simpl.
    by rewrite lookup_insert_eq. }
  rewrite Hs'. simpl. split; congruence.
Qed.

(** C4: on every [read] that returns a buffer, the time stamped on the
    buffer is the anchor plus the sample count times 1000000 divided by the
    sampling rate, in [int64_t] arithmetic with C's truncating division,
    where the anchor and the sample count are those of the stage once the
    input is in hand (before the count is incremented) and the sampling rate
    is the one in the interface record after the decode step; this is the
    exact integer value whenever the product and the sum fit an [int64_t].
    Afterwards the sample count has grown by the frame length that the
    decode step reported, whether the step succeeded or not, and the anchor
    is unchanged. *)
Theorem read_stamps_anchor_plus_elapsed :
  forall (E : Env) out options (s : AACDecoder E) st b s',
    read E out options s = Returns (st, Some b, s') ->
    exists seek s1 s2 c m,
      read_seek E options s = Returns (seek, s1)
      /\ read_fetch E options seek s1 = Returns (None, s2)
      /\ st = OK
      /\ mConfig s' = dr_config (PVMP4AudioDecodeFrame E c m)
      /\ let anchor := mAnchorTimeUs s2 in
         let samples := mNumSamplesOutput s2 in
         let rate := samplingRate (mConfig s') in
         let frames := frameLength (mConfig s') in
         rate <> 0
         /\ MetaData.findInt64 kKeyTime (mMetaData b)
            = Some (int64_add anchor (int64_mul samples 1000000 ÷ rate))
         /\ (in_int64 (samples * 1000000) ->
             in_int64 (anchor + samples * 1000000 ÷ rate) ->
             MetaData.findInt64 kKeyTime (mMetaData b)
             = Some (anchor + samples * 1000000 ÷ rate))
         /\ mNumSamplesOutput s' = int64_add samples frames
         /\ mAnchorTimeUs s' = anchor.
Proof.
  intros E out options s st b s' Hread.
  apply read_returns_inv in Hread
    as (seek & s1 & Hseek & [(_ & [=] & _) | Hok]).
  destruct Hok as (s2 & b' & -> & [= <-] & Hfetch & Hdec).
  apply read_decode_stamp in Hdec
    as (c & m & timeUs & Hcfg & Ht & Hfind & Hn & Ha).
  apply timestamp_Some in Ht as [Hrate ->].
  exists seek, s1, s2, c, m. repeat split; try done.
  intros Hmul Hsum. rewrite Hfind. unfold int64_mul.
  rewrite (to_int64_id _ Hmul). unfold int64_add.
  by rewrite (to_int64_id _ Hsum).
Qed.

(** The window of the input buffer after a decode step that consumed
    [used] bytes. *)
Lemma advance_input_window (E : Env) c (s : AACDecoder E) input :
  mInputBuffer s = Some input ->
  let input' :=
    set_range (size_add (mRangeOffset input) (inputBufferUsedLength c))
      (size_sub (mRangeLength input) (inputBufferUsedLength c)) input in
  (mRangeLength input' = 0 ->
   mInputBuffer (advance_input c s) = None
   /\ events (advance_input c s) = events s ++ [BufferReleased input'])
  /\ (mRangeLength input' <> 0 ->
      mInputBuffer (advance_input c s) = Some input'
      /\ events (advance_input c s) = events s).
Proof.
  intros Hin input'. unfold advance_input. rewrite Hin. fold input'.
  destruct (Z.eqb_spec (mRangeLength input') 0); split; done.
Qed.

(** C6: on a [read] whose decode step succeeds (the first two blocks went
    through, the pool hands out a buffer, the library reports a positive
    sampling rate) the input buffer is still held after the step and its
    window moves by the number of bytes the library reports as used: the
    offset grows and the length shrinks by [inputBufferUsedLength], in
    [size_t] arithmetic, which is exact when the used length is within the
    window.  The buffer is released and cleared exactly when the length that
    remains is zero; otherwise it stays, and the next [read] decodes from it
    without reading the source. *)
Theorem read_advances_input_window :
  forall (E : Env) out options (s : AACDecoder E) seek s1 s2
         group slot buffer group' input scratch,
    read_seek E options s = Returns (seek, s1) ->
    read_fetch E options seek s1 = Returns (None, s2) ->
    mBufferGroup s2 = Some group ->
    MediaBufferGroup.acquire_buffer group
      = (OK, Some (slot, buffer), group') ->
    mInputBuffer s2 = Some input ->
    mDecoderBuf s2 = Some scratch ->
    let r := PVMP4AudioDecodeFrame E
               (decode_call input buffer (mConfig s2)) scratch in
    let used := inputBufferUsedLength (dr_config r) in
    let input' :=
      set_range (size_add (mRangeOffset input) used)
        (size_sub (mRangeLength input) used) input in
    dr_status r = MP4AUDEC_SUCCESS ->
    0 < samplingRate (dr_config r) ->
    exists b s',
      read E out options s = Returns (OK, Some b, s')
      /\ mData input' = mData input
      /\ mRangeOffset input' = to_size_t (mRangeOffset input + used)
      /\ mRangeLength input' = to_size_t (mRangeLength input - used)
      /\ (0 <= used <= mRangeLength input ->
          0 <= mRangeOffset input ->
          mRangeOffset input + mRangeLength input < 2 ^ size_bits ->
          mRangeOffset input' = mRangeOffset input + used
          /\ mRangeLength input' = mRangeLength input - used)
      /\ (mRangeLength input' = 0 ->
          mInputBuffer s' = None
          /\ events s'
             = events s2 ++ [BufferAcquired; EngineDecode;
                             BufferReleased input'])
      /\ (mRangeLength input' <> 0 ->
          mInputBuffer s' = Some input'
          /\ events s' = events s2 ++ [BufferAcquired; EngineDecode]
          /\ forall options' seek',
               read_fetch E options' seek' s' = Returns (None, s')).
Proof.
  intros E out options s seek s1 s2 group slot buffer group' input scratch
    Hseek Hfetch Hg Hacq Hin Hbuf r used input' Hok Hrate.
  set (s3 := after_decode_step s2 group' input buffer r).
  pose proof (timestamp_defined (mAnchorTimeUs s3) (mNumSamplesOutput s3)
                _ Hrate) as Ht.
  eexists _, _. split.
  { rewrite (read_decodes E out _ _ _ _ _ Hseek Hfetch).
    erewrite (proj2 (read_decode_returns_iff E s2 _ _)); [reflexivity|].
    exists group, slot, buffer, group', input, scratch.
    eexists _, s3, _. repeat split; try eassumption.
    fold r. rewrite Hok. apply substitute_silence_success. }
  split; [reflexivity|]. split; [reflexivity|]. split; [reflexivity|].
  split.
  { intros Hused Hoff Hsum. simpl. unfold size_add, size_sub.
    rewrite !to_size_t_id; [done| |]; unfold in_size_t; lia. }
  assert (Hin3 : mInputBuffer s3 = Some input) by exact Hin.
  destruct (advance_input_window E (dr_config r) s3 input Hin3)
    as [Hzero Hrest].
  fold used in Hzero, Hrest. fold input' in Hzero, Hrest.
  split.
  - intros Hlen. destruct (Hzero Hlen) as [Hnone Hev].
    split; [exact Hnone|].
    unfold with_group, with_samples. cbn [events]. fold r. rewrite Hev.
    simpl. by rewrite <- !app_assoc.
  - intros Hlen. destruct (Hrest Hlen) as [Hsome Hev].
    split; [exact Hsome|]. split.
    + unfold with_group, with_samples. cbn [events]. fold r. rewrite Hev.
      simpl. by rewrite <- !app_assoc.
    + intros options' seek'. eapply read_fetch_pending. exact Hsome.
Qed.

(** ** The scripted environment meets the contracts *)

Lemma scenario_keeps_channels format units config_status script :
  keeps_channels (Scenario.env format units config_status script).
Proof.
  split; simpl; try done.
  intros c m. by destruct (script !! m).
Qed.



Lemma read_stamps_anchor_plus_elapsed_witness :
  let E := Scenario.player (Some 500000) in
  let s := Scenario.read1 (Some 500000) in
  exists b s',
    read E None None s = Returns (OK, Some b, s')
    /\ mAnchorTimeUs s = 0
    /\ mNumSamplesOutput s = 1024
    /\ MetaData.findInt64 kKeyTime (mMetaData b) = Some 23219
    /\ mNumSamplesOutput s' = 2048.
Proof.
  intros E s.
  pose (s' := Scenario.state_of (read E None None s) s).
  pose (b := match read E None None s with
             | Returns (_, Some b, _) => b
             | _ => MediaBuffer_new 0
             end).
  assert (Hread : read E None None s = Returns (OK, Some b, s'))
    by (vm_compute; reflexivity).
  destruct (read_stamps_anchor_plus_elapsed E None None s OK b s' Hread)
    as (seek & s1 & s2 & c & m & Hseek & Hfetch & _ & _ & _ & _ & Hexact
        & Hn & _).
  rewrite (read_seek_none E None s eq_refl) in Hseek.
  injection Hseek as <- <-.
  assert (Hin : mInputBuffer s
                = Some (set_range 4 6
                          (Scenario.unit_of Scenario.ten_bytes (Some 0))))
    by (vm_compute; reflexivity).
  rewrite (read_fetch_pending E None (-1) s _ Hin) in Hfetch.
  injection Hfetch as <-.
  exists b, s'. split; [exact Hread|].
  split; [vm_compute; reflexivity|]. split; [vm_compute; reflexivity|].
  split.
  - rewrite Hexact; [vm_compute; reflexivity | |];
      vm_compute; split; discriminate.
  - rewrite Hn. vm_compute. reflexivity.
Defined.

Lemma read_advances_input_window_witness :
  let E := Scenario.player (Some 500000) in
  let s := Scenario.started (Some 500000) in
  let input := Scenario.unit_of Scenario.ten_bytes (Some 0) in
  exists b s',
    read E None None s = Returns (OK, Some b, s')
    /\ mInputBuffer s' = Some (set_range 4 6 input)
    /\ read_fetch E None (-1) s' = Returns (None, s').
Proof.
  intros E s input.
  pose (s2 := Scenario.state_of (read_fetch E None (-1) s) s).
  pose (group := default [] (mBufferGroup s2)).
  pose (buffer := MediaBufferGroup.slot_buffer
                    (default (MediaBufferGroup.mkSlot (MediaBuffer_new 0) true)
                       (head group))).
  destruct (read_advances_input_window E None None s (-1) s s2
              group 0%nat buffer
              (MediaBufferGroup.store 0 buffer group) input 0%nat)
    as (b & s' & Hread & _ & _ & _ & _ & _ & Hrest).
  - vm_compute; reflexivity.
  - vm_compute; reflexivity.
  - vm_compute; reflexivity.
  - vm_compute; reflexivity.
  - vm_compute; reflexivity.
  - vm_compute; reflexivity.
  - vm_compute; reflexivity.
  - vm_compute; reflexivity.
  - destruct Hrest as (Hin & _ & Hnext); [vm_compute; discriminate|].
    exists b, s'. split; [exact Hread|]. split; [exact Hin | apply Hnext].
Defined.

(** * Further properties of the stage *)

(** ** The record of calls of one [read] *)

Section ReadEvents.

Variable E : Env.
Implicit Types s : AACDecoder E.

Lemma read_seek_pulls options s seek s1 :
  read_seek E options s = Returns (seek, s1) ->
  (mInputBuffer s1 = None <-> pulls options s = true).
Proof.
  unfold read_seek, pulls, CHECK.
  destruct (options ≫= getSeekTo) as [t|]; simpl.
  - destruct (0 <=? t); simpl; [|discriminate]. intros [= <- <-].
    rewrite release_input_clears. by destruct (mInputBuffer s).
  - intros [= <- <-]. destruct (mInputBuffer s); split; done.
Qed.

Lemma read_decode_events_exact s b s' :
  read_decode E s = Returns (b, s') ->
  exists rel,
    events s' = events s ++ BufferAcquired :: EngineDecode :: rel
    /\ (rel = [] \/ exists i, rel = [BufferReleased i]).
Proof.
  intros H. apply read_decode_returns_iff in H
    as (group & slot & buffer & group' & input & scratch & b1 & s1
        & timeUs & _ & _ & Hin & _ & Hsil & _ & _ & ->).
  set (r := PVMP4AudioDecodeFrame E (decode_call input buffer (mConfig s))
              scratch) in *.
  unfold with_group, with_samples. cbn [events].
  revert Hsil. unfold substitute_silence, memset_zero.
  destruct (negb _); simpl.
  - destruct (_ <=? _); simpl; [|discriminate]. intros [= <- <-].
    unfold advance_input, release_input, after_decode_step. simpl.
    rewrite Hin. simpl. exists [BufferReleased input].
    split; [by rewrite <- !app_assoc | eauto].
  - intros [= <- <-]. unfold advance_input, after_decode_step. simpl.
    rewrite Hin. simpl. destruct (_ =? 0); simpl.
    + eexists [BufferReleased _]. split; [by rewrite <- !app_assoc | eauto].
    + exists []. split; [by rewrite <- !app_assoc | eauto].
Qed.

(** The calls of a [read] that returns, in order: the release of the seek
    block, the read of the source when the stage has to pull, and on [OK]
    the acquisition of the output buffer, the decode step and at most one
    release of the input buffer. *)
Lemma read_events_exact out options s st o s' :
  read E out options s = Returns (st, o, s') ->
  exists decoded,
    events s'
    = events s ++ seek_released options s
        ++ (if pulls options s then [SourceRead options] else []) ++ decoded
    /\ ((st <> OK /\ decoded = [])
        \/ (st = OK
            /\ exists rel,
                 decoded = BufferAcquired :: EngineDecode :: rel
                 /\ (rel = [] \/ exists i, rel = [BufferReleased i]))).
Proof.
  intros Hread. apply read_returns_inv in Hread
    as (seek & s1 & Hseek & Hcases).
  pose proof (read_seek_events E _ _ _ _ Hseek) as Hev1.
  pose proof (read_seek_pulls _ _ _ _ Hseek) as Hpull.
  destruct Hcases as [(Hst & _ & Hfetch) | (s2 & b & -> & _ & Hfetch & Hdec)].
  - apply read_fetch_early in Hfetch as (Hin & _ & src' & unit & _ & ->).
    apply Hpull in Hin. rewrite Hin. exists []. split; [|by left].
    simpl. rewrite Hev1. by rewrite <- !app_assoc.
  - apply read_decode_events_exact in Hdec as (rel & Hev3 & Hrel).
    exists (BufferAcquired :: EngineDecode :: rel). split; [|right; eauto].
    apply read_fetch_continue_events in Hfetch
      as (_ & _ & _ & _ & [[Hsome ->] | [Hnone Hev2]]).
    + assert (Hp : pulls options s = false).
      { destruct Hpull as [_ Hback].
        destruct (pulls options s); [|done].
        rewrite Hback in Hsome by done. by destruct Hsome. }
      rewrite Hp, Hev3, Hev1. by rewrite <- !app_assoc.
    + apply Hpull in Hnone. rewrite Hnone, Hev3, Hev2, Hev1.
      by rewrite <- !app_assoc.
Qed.

Lemma count_app p (l1 l2 : list Event) :
  count p (l1 ++ l2) = (count p l1 + count p l2)%nat.
Proof. unfold count. by rewrite List.filter_app, length_app. Qed.

Lemma count_seek_released p options s :
  (forall b, p (BufferReleased b) = false) ->
  count p (seek_released options s) = 0%nat.
Proof.
  intros Hp. unfold seek_released, released, count.
  destruct (options ≫= getSeekTo); [|done].
  destruct (mInputBuffer s); [|done]. simpl. by rewrite Hp.
Qed.

Lemma allocated_app (l1 l2 : list Event) :
  allocated (l1 ++ l2) = allocated l1 + allocated l2.
Proof.
  unfold allocated. induction l1 as [|e l1 IH]; simpl; [done|].
  rewrite IH. lia.
Qed.

Lemma allocated_seek_released options s :
  allocated (seek_released options s) = 0.
Proof.
  unfold seek_released, released.
  destruct (options ≫= getSeekTo); [|done]. by destruct (mInputBuffer s).
Qed.

End ReadEvents.

(** X1: a [read] that returns reads the source exactly once when a seek is
    requested or no input buffer is pending, and not at all otherwise (the
    source is then left as it was).  With [OK] it acquires exactly one
    output buffer and makes exactly one decode step; with any other status
    it does neither.  It never allocates or frees scratch memory (no call
    of [malloc], no call of [free]) and never starts the source. *)
Theorem read_calls_per_read :
  forall (E : Env) out options (s : AACDecoder E) st o s',
    read E out options s = Returns (st, o, s') ->
    count is_source_read (events_since s s')
      = (if pulls options s then 1%nat else 0%nat)
    /\ (pulls options s = false -> mSource s' = mSource s)
    /\ count is_acquire (events_since s s') = (if st =? OK then 1%nat else 0%nat)
    /\ count is_decode (events_since s s') = (if st =? OK then 1%nat else 0%nat)
    /\ count is_source_start (events_since s s') = 0%nat
    /\ count is_malloc (events_since s s') = 0%nat
    /\ count is_free (events_since s s') = 0%nat
    /\ allocated (events_since s s') = 0.
Proof.
  intros E out options s st o s' Hread.
  pose proof (read_events_exact E _ _ _ _ _ _ Hread) as (decoded & Hev & Hdec).
  rewrite (events_since_app E s s' _ Hev).
  rewrite !count_app, !allocated_app, !count_seek_released,
    allocated_seek_released by done.
  assert (Hsrc : pulls options s = false -> mSource s' = mSource s).
  { intros Hp. apply read_returns_inv in Hread
      as (seek & s1 & Hseek & Hcases).
    pose proof (read_seek_pulls E _ _ _ _ Hseek) as Hpull.
    pose proof (read_seek_frame E _ _ _ _ Hseek) as (Hsrc1 & _).
    destruct Hcases as [(_ & _ & Hfetch) | (s2 & b & _ & _ & Hfetch & Hd)].
    - apply read_fetch_early in Hfetch as (Hin & _).
      apply Hpull in Hin. congruence.
    - destruct (mInputBuffer s1) as [i|] eqn:Hin.
      + rewrite (read_fetch_pending E _ _ _ _ Hin) in Hfetch.
        injection Hfetch as <-.
        apply read_decode_returns_iff in Hd
          as (group & slot & buffer & group' & input & scratch & b1 & s3
              & timeUs & _ & _ & _ & _ & Hsil & _ & _ & ->).
        apply substitute_silence_frame in Hsil as (Hs3 & _).
        pose proof (advance_input_frame E
                      (dr_config (PVMP4AudioDecodeFrame E
                         (decode_call input buffer (mConfig s1)) scratch)) s3)
          as (Hs4 & _).
        simpl. rewrite Hs4, Hs3. simpl. exact Hsrc1.
      + assert (pulls options s = true) by by apply Hpull. congruence. }
  destruct (Z.eqb_spec st OK) as [->|Hne].
  - destruct Hdec as [[? _] | (_ & rel & -> & Hrel)]; [done|].
    destruct (pulls options s); destruct Hrel as [-> | [i ->]];
      repeat split; try done.
  - destruct Hdec as [[_ ->] | [? _]]; [|done].
    destruct (pulls options s); repeat split; done.
Qed.

Lemma read_calls_per_read_witness :
  let E := Scenario.player (Some 500000) in
  let s := Scenario.read1 (Some 500000) in
  exists b s',
    read E None None s = Returns (OK, Some b, s')
    /\ count is_source_read (events_since s s') = 0%nat
    /\ count is_acquire (events_since s s') = 1%nat
    /\ count is_decode (events_since s s') = 1%nat
    /\ mSource s' = mSource s.
Proof.
  intros E s.
  pose (s' := Scenario.state_of (read E None None s) s).
  pose (b := match read E None None s with
             | Returns (_, Some b, _) => b
             | _ => MediaBuffer_new 0
             end).
  assert (Hread : read E None None s = Returns (OK, Some b, s'))
    by (vm_compute; reflexivity).
  destruct (read_calls_per_read E None None s OK (Some b) s' Hread)
    as (Hsrc & Hsame & Hacq & Hdec & _).
  assert (Hp : pulls (E:=E) None s = false) by (vm_compute; reflexivity).
  rewrite Hp in Hsrc.
  exists b, s'. split; [exact Hread|]. split; [exact Hsrc|].
  split; [exact Hacq|]. split; [exact Hdec | exact (Hsame Hp)].
Defined.

(** ** What a [read] leaves alone *)

Section ReadFrame.

Variable E : Env.
Implicit Types s : AACDecoder E.

Lemma find_free_spec (g : list MediaBufferGroup.slot) i0 i b :
  MediaBufferGroup.find_free g i0 = Some (i, b) ->
  exists j, i = (i0 + j)%nat /\ g !! j = Some (MediaBufferGroup.mkSlot b false).
Proof.
  revert i0. induction g as [|[b0 used] g IH]; intros i0; simpl; [done|].
  destruct used.
  - intros H. apply IH in H as (j & -> & Hj). exists (S j). split; [lia|done].
  - intros [= <- <-]. exists 0%nat. split; [lia|done].
Qed.

(** The pool hands out a buffer of a free slot and marks that slot. *)
Lemma acquire_buffer_spec (g g' : list MediaBufferGroup.slot) i b :
  MediaBufferGroup.acquire_buffer g = (OK, Some (i, b), g') ->
  g !! i = Some (MediaBufferGroup.mkSlot b false)
  /\ g' = <[i := MediaBufferGroup.mkSlot b true]> g.
Proof.
  unfold MediaBufferGroup.acquire_buffer.
  destruct (MediaBufferGroup.find_free g 0) as [[i0 b0]|] eqn:Hfree;
    [|discriminate].
  intros [= <- <- <-]. apply find_free_spec in Hfree as (j & -> & Hj). done.
Qed.

Lemma substitute_silence_size decoderErr n buffer s b1 s1 :
  substitute_silence decoderErr n buffer s = Returns (b1, s1) ->
  mSize b1 = mSize buffer.
Proof.
  unfold substitute_silence, memset_zero. destruct (negb _); simpl.
  - destruct (_ <=? _); simpl; [|discriminate]. by intros [= <- <-].
  - by intros [= <- <-].
Qed.

Lemma read_fetch_frame options seek s early s2 :
  read_fetch E options seek s = Returns (early, s2) ->
  mStarted s2 = mStarted s /\ mBufferGroup s2 = mBufferGroup s
  /\ mConfig s2 = mConfig s /\ mDecoderBuf s2 = mDecoderBuf s.
Proof.
  unfold read_fetch, CHECK, deref.
  destruct (mInputBuffer s); [by intros [= <- <-]|].
  destruct (src_read E (mSource s) options) as [[src' err] unit].
  simpl. destruct (negb _); simpl; [by intros [= <- <-]|].
  destruct unit as [u|]; simpl; [|discriminate].
  destruct (MetaData.findInt64 kKeyTime _); simpl; [by intros [= <- <-]|].
  destruct (seek <? 0); simpl; [|discriminate]. by intros [= <- <-].
Qed.

(** What the decode block does to the pool, the scratch memory and the
    flag. *)
Lemma read_decode_frame s b s' :
  read_decode E s = Returns (b, s') ->
  mStarted s' = mStarted s
  /\ is_Some (mBufferGroup s) /\ is_Some (mDecoderBuf s)
  /\ is_Some (mDecoderBuf s')
  /\ pool_capacities s' = pool_capacities s.
Proof.
  intros H. apply read_decode_returns_iff in H
    as (group & slot & buffer & group' & input & scratch & b1 & s1
        & timeUs & Hg & Hacq & _ & Hbuf & Hsil & _ & -> & ->).
  set (r := PVMP4AudioDecodeFrame E (decode_call input buffer (mConfig s))
              scratch) in *.
  pose proof (substitute_silence_size _ _ _ _ _ _ Hsil) as Hsize.
  apply substitute_silence_frame in Hsil as (_ & Hst1 & Hg1 & _ & Hb1 & _).
  pose proof (advance_input_frame E (dr_config r) s1)
    as (_ & Hst2 & Hg2 & _ & Hb2 & _).
  apply acquire_buffer_spec in Hacq as [Hslot ->].
  unfold pool_capacities. simpl.
  rewrite Hst2, Hst1, Hg2, Hg1, Hb2, Hb1, Hg. simpl.
  repeat split; eauto.
  f_equal. unfold MediaBufferGroup.store.
  rewrite list_insert_insert_eq.
  change (map ?f ?l) with (f <$> l). rewrite list_fmap_insert. simpl.
  apply list_insert_id. rewrite list_lookup_fmap, Hslot. simpl.
  by rewrite Hsize.
Qed.

(** The state of the flag, the scratch memory and the pool over a [read]. *)
Lemma read_frame out options s st o s' :
  read E out options s = Returns (st, o, s') ->
  mStarted s' = mStarted s /\ held s' = held s
  /\ pool_capacities s' = pool_capacities s.
Proof.
  intros Hread.
  apply read_returns_inv in Hread as (seek & s1 & Hseek & Hcases).
  apply read_seek_frame in Hseek as (_ & Hst1 & Hg1 & _ & Hb1 & _).
  unfold held, pool_capacities.
  destruct Hcases as [(_ & _ & Hfetch) | (s2 & b & _ & _ & Hfetch & Hd)].
  - apply read_fetch_frame in Hfetch as (Hst2 & Hg2 & _ & Hb2).
    by rewrite Hst2, Hg2, Hb2, Hst1, Hg1, Hb1.
  - apply read_fetch_frame in Hfetch as (Hst2 & Hg2 & _ & Hb2).
    apply read_decode_frame in Hd as (Hst3 & _ & [x Hx] & [y Hy] & Hcap).
    unfold pool_capacities in Hcap.
    rewrite Hst3, Hcap, Hy, Hst2, Hg2, Hst1, Hg1, <- Hb1, <- Hb2, Hx.
    done.
Qed.

Lemma invariant_held s :
  engine_state_invariant s ->
  held s = if mStarted s then 1 else 0.
Proof.
  unfold engine_state_invariant, held. intros [H1 H2].
  destruct (mDecoderBuf s), (mStarted s); try done.
  - discriminate H1. eauto.
  - destruct H2 as [? [=]]. done.
Qed.

Lemma held_invariant s :
  held s = (if mStarted s then 1 else 0) -> engine_state_invariant s.
Proof.
  unfold engine_state_invariant, held.
  destruct (mDecoderBuf s), (mStarted s); try discriminate; intros _.
  - split; eauto.
  - split; [intros [? [=]] | done].
Qed.

End ReadFrame.

(** X2: a [read] that returns leaves the started flag as it was, neither
    allocates nor drops the scratch memory, and leaves the pool with the
    same buffers of the same capacities; so it keeps the invariant that the
    scratch memory is held exactly while the stage is started. *)
Theorem read_keeps_resources :
  forall (E : Env) out options (s : AACDecoder E) st o s',
    read E out options s = Returns (st, o, s') ->
    mStarted s' = mStarted s
    /\ held s' = held s
    /\ pool_capacities s' = pool_capacities s
    /\ (engine_state_invariant s -> engine_state_invariant s').
Proof.
  intros E out options s st o s' Hread.
  apply read_frame in Hread as (Hst & Hheld & Hcap).
  split; [exact Hst|]. split; [exact Hheld|]. split; [exact Hcap|].
  intros Hinv. apply held_invariant. rewrite Hheld, Hst.
  by apply invariant_held.
Qed.

Lemma read_keeps_resources_witness :
  let E := Scenario.player (Some 500000) in
  let s := Scenario.started (Some 500000) in
  exists b s',
    read E None None s = Returns (OK, Some b, s')
    /\ pool_capacities s = Some [4096]
    /\ pool_capacities s' = Some [4096]
    /\ engine_state_invariant s'.
Proof.
  intros E s.
  pose (s' := Scenario.state_of (read E None None s) s).
  pose (b := match read E None None s with
             | Returns (_, Some b, _) => b
             | _ => MediaBuffer_new 0
             end).
  assert (Hread : read E None None s = Returns (OK, Some b, s'))
    by (vm_compute; reflexivity).
  destruct (read_keeps_resources E None None s OK (Some b) s' Hread)
    as (_ & _ & Hcap & Hinv).
  assert (Hcap0 : pool_capacities s = Some [4096])
    by (vm_compute; reflexivity).
  exists b, s'. split; [exact Hread|]. split; [exact Hcap0|].
  split; [by rewrite Hcap|].
  apply Hinv. split; [intros _; vm_compute; reflexivity|].
  intros _. eexists. vm_compute. reflexivity.
Defined.

(** X3: on a stage without a pool (one that was never started, or was
    stopped) a [read] never yields a buffer: if it returns, it returns the
    status, other than [OK], that the source returned, with a null output,
    and the stage still has no pool. *)
Theorem read_without_pool_yields_nothing :
  forall (E : Env) out options (s : AACDecoder E) st o s',
    mBufferGroup s = None ->
    read E out options s = Returns (st, o, s') ->
    st <> OK /\ o = None /\ mBufferGroup s' = None
    /\ mDecoderBuf s' = mDecoderBuf s.
Proof.
  intros E out options s st o s' Hnone Hread.
  apply read_returns_inv in Hread as (seek & s1 & Hseek & Hcases).
  apply read_seek_frame in Hseek as (_ & _ & Hg1 & _ & Hb1 & _).
  destruct Hcases as [(Hst & -> & Hfetch) | (s2 & b & _ & _ & Hfetch & Hd)].
  - apply read_fetch_frame in Hfetch as (_ & Hg2 & _ & Hb2).
    repeat split; try done; congruence.
  - apply read_fetch_frame in Hfetch as (_ & Hg2 & _).
    apply read_decode_frame in Hd as (_ & [g Hg] & _). congruence.
Qed.

Lemma read_without_pool_yields_nothing_witness :
  let E := Scenario.drained in
  let s := AACDecoder_new E 0%nat Scenario.garbage in
  exists s',
    read E None None s = Returns (Scenario.ERROR_END_OF_STREAM, None, s')
    /\ mBufferGroup s' = None.
Proof.
  intros E s.
  pose (s' := with_input None
                (with_source (E:=E) 0%nat (emit (SourceRead None) s))).
  assert (Hread : read E None None s
                  = Returns (Scenario.ERROR_END_OF_STREAM, None, s'))
    by reflexivity.
  destruct (read_without_pool_yields_nothing E None None s _ _ _ eq_refl Hread)
    as (_ & _ & Hg & _).
  exists s'. split; [exact Hread | exact Hg].
Defined.

(** ** The output buffer *)

(** What the decode block writes into the output buffer. *)
Lemma read_decode_output (E : Env) (s : AACDecoder E) b s' :
  read_decode E s = Returns (b, s') ->
  mRangeOffset b = 0
  /\ mRangeLength b = numOutBytes (mConfig s')
  /\ exists c m, mConfig s' = dr_config (PVMP4AudioDecodeFrame E c m)
                 /\ desiredChannels c = desiredChannels (mConfig s).
Proof.
  intros H. apply read_decode_returns_iff in H
    as (group & slot & buffer & group' & input & scratch & b1 & s1
        & timeUs & _ & _ & _ & _ & Hsil & _ & -> & ->).
  set (r := PVMP4AudioDecodeFrame E (decode_call input buffer (mConfig s))
              scratch) in *.
  apply substitute_silence_frame in Hsil as (_ & _ & _ & Hc1 & _).
  pose proof (advance_input_frame E (dr_config r) s1) as (_ & _ & _ & Hc2 & _).
  simpl in Hc1. simpl. rewrite Hc2, Hc1.
  split; [done|]. split; [done|].
  by exists (decode_call input buffer (mConfig s)), scratch.
Qed.

(** X4: with a library that leaves the channel count alone, a stage whose
    channel count is the 2 that [start] sets keeps it over a [read], and
    every buffer that a [read] returns has the range that starts at 0 and
    is 4 bytes (2 bytes times 2 channels) times the frame length reported
    by the decode step long, as a [size_t]; a frame length of zero gives an
    empty range. *)
Theorem read_output_range :
  forall (E : Env) out options (s : AACDecoder E) st o s',
    keeps_channels E ->
    desiredChannels (mConfig s) = 2 ->
    read E out options s = Returns (st, o, s') ->
    desiredChannels (mConfig s') = 2
    /\ forall b, o = Some b ->
         mRangeOffset b = 0
         /\ mRangeLength b = to_size_t (frameLength (mConfig s') * 4)
         /\ in_size_t (mRangeLength b)
         /\ (frameLength (mConfig s') = 0 -> mRangeLength b = 0).
Proof.
  intros E out options s st o s' [_ _ Hkeep] Hch Hread.
  apply read_returns_inv in Hread as (seek & s1 & Hseek & Hcases).
  apply read_seek_frame in Hseek as (_ & _ & _ & Hc1 & _).
  destruct Hcases as [(_ & -> & Hfetch) | (s2 & b & _ & -> & Hfetch & Hd)].
  - apply read_fetch_frame in Hfetch as (_ & _ & Hc2 & _).
    split; [congruence | discriminate].
  - apply read_fetch_frame in Hfetch as (_ & _ & Hc2 & _).
    apply read_decode_output in Hd as (Hoff & Hlen & c & m & Hcfg & Hc).
    assert (Hch' : desiredChannels (mConfig s') = 2).
    { rewrite Hcfg, Hkeep. congruence. }
    split; [exact Hch'|]. intros b' [= <-].
    assert (Hlen' : mRangeLength b
                    = to_size_t (frameLength (mConfig s') * 4)).
    { rewrite Hlen, numOutBytes_product, Hch'. f_equal. lia. }
    split; [exact Hoff|]. split; [exact Hlen'|].
    split; [rewrite Hlen'; apply to_size_t_range|].
    intros Hzero. rewrite Hlen', Hzero. reflexivity.
Qed.

Lemma read_output_range_witness :
  let E := Scenario.player (Some 500000) in
  let s := Scenario.started (Some 500000) in
  exists b s',
    read E None None s = Returns (OK, Some b, s')
    /\ frameLength (mConfig s') = 1024
    /\ mRangeOffset b = 0
    /\ mRangeLength b = 4096.
Proof.
  intros E s.
  pose (s' := Scenario.state_of (read E None None s) s).
  pose (b := match read E None None s with
             | Returns (_, Some b, _) => b
             | _ => MediaBuffer_new 0
             end).
  assert (Hread : read E None None s = Returns (OK, Some b, s'))
    by (vm_compute; reflexivity).
  assert (Hch : desiredChannels (mConfig s) = 2) by (vm_compute; reflexivity).
  destruct (read_output_range E None None s OK (Some b) s'
              (scenario_keeps_channels _ _ _ _) Hch Hread) as [_ Hout].
  destruct (Hout b eq_refl) as (Hoff & Hlen & _).
  assert (Hf : frameLength (mConfig s') = 1024) by (vm_compute; reflexivity).
  exists b, s'. split; [exact Hread|]. split; [exact Hf|].
  split; [exact Hoff|]. rewrite Hlen, Hf. reflexivity.
Defined.

(** ** Time stamps *)

Section Stamps.

Variable E : Env.
Implicit Types s : AACDecoder E.

(** The pull that goes on to the decode leaves the sample count as it was
    or resets it to zero, the latter with the anchor set from the unit. *)
Lemma read_fetch_samples options seek s s2 :
  read_fetch E options seek s = Returns (None, s2) ->
  (mNumSamplesOutput s2 = mNumSamplesOutput s
   /\ mAnchorTimeUs s2 = mAnchorTimeUs s)
  \/ mNumSamplesOutput s2 = 0.
Proof.
  unfold read_fetch, CHECK, deref.
  destruct (mInputBuffer s); [intros [= <-]; by left|].
  destruct (src_read E (mSource s) options) as [[src' err] unit].
  simpl. destruct (negb _); simpl; [discriminate|].
  destruct unit as [u|]; simpl; [|discriminate].
  destruct (MetaData.findInt64 kKeyTime _); simpl.
  - intros [= <-]. by right.
  - destruct (seek <? 0); simpl; [|discriminate]. intros [= <-]. by left.
Qed.

(** A pull with no input pending: the unit, and what it does to the anchor
    and the sample count. *)
Lemma read_fetch_pulled options seek s s2 :
  mInputBuffer s = None ->
  read_fetch E options seek s = Returns (None, s2) ->
  exists src' unit,
    src_read E (mSource s) options = (src', OK, Some unit)
    /\ match MetaData.findInt64 kKeyTime (mMetaData unit) with
       | Some timeUs => mAnchorTimeUs s2 = timeUs /\ mNumSamplesOutput s2 = 0
       | None =>
           seek < 0 /\ mAnchorTimeUs s2 = mAnchorTimeUs s
           /\ mNumSamplesOutput s2 = mNumSamplesOutput s
       end.
Proof.
  intros Hin. unfold read_fetch, CHECK, deref. rewrite Hin.
  destruct (src_read E (mSource s) options) as [[src' err] unit].
  simpl. destruct (Z.eqb_spec err OK) as [->|]; simpl; [|discriminate].
  destruct unit as [u|]; simpl; [|discriminate].
  intros Hret. exists src', u. split; [done|]. revert Hret.
  destruct (MetaData.findInt64 kKeyTime _); simpl.
  - by intros [= <-].
  - destruct (Z.ltb_spec seek 0); simpl; [|discriminate]. by intros [= <-].
Qed.

End Stamps.

(** X5: when a [read] that has to pull (a seek is requested or no input is
    pending) returns a buffer, the source returned [OK] with a unit; if the
    unit carries a time, the buffer is stamped with exactly that time (as
    an [int64_t]), the anchor is that time and the sample count afterwards
    is the frame length of this one decode step; and a unit pulled on a
    seek always carries a time. *)
Theorem read_stamps_pulled_unit_time :
  forall (E : Env) out options (s : AACDecoder E) st b s',
    pulls options s = true ->
    read E out options s = Returns (st, Some b, s') ->
    exists src' unit,
      src_read E (mSource s) options = (src', OK, Some unit)
      /\ (is_Some (options ≫= getSeekTo) ->
          is_Some (MetaData.findInt64 kKeyTime (mMetaData unit)))
      /\ forall timeUs,
           MetaData.findInt64 kKeyTime (mMetaData unit) = Some timeUs ->
           MetaData.findInt64 kKeyTime (mMetaData b) = Some (to_int64 timeUs)
           /\ (in_int64 timeUs ->
               MetaData.findInt64 kKeyTime (mMetaData b) = Some timeUs)
           /\ mAnchorTimeUs s' = timeUs
           /\ mNumSamplesOutput s' = to_int64 (frameLength (mConfig s')).
Proof.
  intros E out options s st b s' Hp Hread.
  apply read_returns_inv in Hread
    as (seek & s1 & Hseek & [(_ & [=] & _) | Hok]).
  destruct Hok as (s2 & b' & -> & [= <-] & Hfetch & Hdec).
  pose proof (read_seek_pulls E _ _ _ _ Hseek) as [_ Hin].
  specialize (Hin Hp).
  pose proof (read_seek_frame E _ _ _ _ Hseek) as (Hsrc & _).
  destruct (read_fetch_pulled E _ _ _ _ Hin Hfetch)
    as (src' & unit & Hread & Hunit).
  rewrite Hsrc in Hread. exists src', unit. split; [exact Hread|].
  apply read_decode_stamp in Hdec
    as (c & m & t & Hcfg & Ht & Hfind & Hn & Ha).
  split.
  - intros [t0 Hsome].
    destruct (MetaData.findInt64 kKeyTime (mMetaData unit)); [eauto|].
    destruct Hunit as (Hneg & _). revert Hseek.
    unfold read_seek, CHECK. rewrite Hsome.
    destruct (Z.leb_spec 0 t0); simpl; [|discriminate].
    intros [= <- _]. lia.
  - intros timeUs Htime. rewrite Htime in Hunit. destruct Hunit as [Ha2 Hn2].
    rewrite Ha2, Hn2 in Ht. apply timestamp_Some in Ht as [Hrate ->].
    assert (Hstamp : int64_add timeUs
                       (int64_mul 0 1000000 ÷ samplingRate (mConfig s'))
                     = to_int64 timeUs).
    { change (int64_mul 0 1000000) with 0. rewrite Z.quot_0_l by exact Hrate.
      unfold int64_add. by rewrite Z.add_0_r. }
    rewrite Hstamp in Hfind.
    split; [exact Hfind|]. split.
    { intros Hrange. by rewrite Hfind, to_int64_id. }
    split; [congruence|]. rewrite Hn, Hn2. reflexivity.
Qed.

Lemma read_stamps_pulled_unit_time_witness :
  let E := Scenario.player (Some 500000) in
  let s := Scenario.read1 (Some 500000) in
  exists b s',
    read E None (Scenario.seek 1000) s = Returns (OK, Some b, s')
    /\ MetaData.findInt64 kKeyTime (mMetaData b) = Some 500000
    /\ mAnchorTimeUs s' = 500000
    /\ mNumSamplesOutput s' = 1024.
Proof.
  intros E s.
  pose (s' := Scenario.state_of (read E None (Scenario.seek 1000) s) s).
  pose (b := match read E None (Scenario.seek 1000) s with
             | Returns (_, Some b, _) => b
             | _ => MediaBuffer_new 0
             end).
  assert (Hread : read E None (Scenario.seek 1000) s
                  = Returns (OK, Some b, s'))
    by (vm_compute; reflexivity).
  destruct (read_stamps_pulled_unit_time E None (Scenario.seek 1000) s OK b s'
              eq_refl Hread) as (src' & unit & Hsrc & _ & Hstamp).
  assert (Hunit : unit = Scenario.unit_of Scenario.ten_bytes (Some 500000)).
  { assert (Hs : (src', OK, Some unit)
                 = (2%nat, OK,
                    Some (Scenario.unit_of Scenario.ten_bytes (Some 500000))))
      by (rewrite <- Hsrc; vm_compute; reflexivity).
    by injection Hs. }
  subst unit.
  destruct (Hstamp 500000 eq_refl) as (_ & Hexact & Ha & Hn).
  exists b, s'. split; [exact Hread|].
  split; [apply Hexact; vm_compute; split; discriminate|].
  split; [exact Ha|]. rewrite Hn. vm_compute. reflexivity.
Defined.

(** X6: while one unit is drained, time stamps do not go back.  Take a
    [read] without a seek that returns a buffer and leaves an input buffer
    pending, and the next [read] without a seek, made once the consumer is
    done with the first buffer (anchor, sample count and pending input are
    as the first [read] left them).  If the decode steps report the same
    positive sampling rate and a frame length that is not negative, and the
    arithmetic stays within [int64_t], the second stamp is at least the
    first. *)
Theorem read_timestamps_nondecreasing :
  forall (E : Env) out1 out2 (s s1 s1' s2 : AACDecoder E)
         st1 st2 b1 b2 t1 t2,
    read E out1 None s = Returns (st1, Some b1, s1) ->
    is_Some (mInputBuffer s1) ->
    mInputBuffer s1' = mInputBuffer s1 ->
    mAnchorTimeUs s1' = mAnchorTimeUs s1 ->
    mNumSamplesOutput s1' = mNumSamplesOutput s1 ->
    read E out2 None s1' = Returns (st2, Some b2, s2) ->
    samplingRate (mConfig s2) = samplingRate (mConfig s1) ->
    0 < samplingRate (mConfig s1) ->
    0 <= frameLength (mConfig s1) ->
    0 <= mNumSamplesOutput s ->
    (mNumSamplesOutput s + frameLength (mConfig s1)) * 1000000 <= INT64_MAX ->
    INT64_MIN <= mAnchorTimeUs s1 ->
    mAnchorTimeUs s1
      + (mNumSamplesOutput s1 * 1000000) ÷ samplingRate (mConfig s1)
      <= INT64_MAX ->
    MetaData.findInt64 kKeyTime (mMetaData b1) = Some t1 ->
    MetaData.findInt64 kKeyTime (mMetaData b2) = Some t2 ->
    t1 <= t2
    /\ t1 = mAnchorTimeUs s1
            + ((mNumSamplesOutput s1 - frameLength (mConfig s1)) * 1000000)
                ÷ samplingRate (mConfig s1)
    /\ t2 = mAnchorTimeUs s1
            + (mNumSamplesOutput s1 * 1000000) ÷ samplingRate (mConfig s1).
Proof.
  intros E out1 out2 s s1 s1' s2 st1 st2 b1 b2 t1 t2
    Hread1 [i Hpend] Hin Ha Hn Hread2 Hrate2 Hrate Hf Hn0 Hmul Hamin Hamax
    Ht1 Ht2.
  (* the first read *)
  apply read_returns_inv in Hread1
    as (seek & sa & Hseek & [(_ & [=] & _) | Hok]).
  destruct Hok as (sb & b' & _ & [= <-] & Hfetch & Hdec).
  rewrite (read_seek_none E None s eq_refl) in Hseek.
  injection Hseek as <- <-.
  apply read_fetch_samples in Hfetch as Hsamples.
  apply read_decode_stamp in Hdec
    as (c & m & t & _ & Hstamp1 & Hfind1 & Hn1 & Ha1).
  rewrite Hfind1 in Ht1. injection Ht1 as ->.
  apply timestamp_Some in Hstamp1 as [_ ->].
  (* the second read *)
  apply read_returns_inv in Hread2
    as (seek2 & sc & Hseek2 & [(_ & [=] & _) | Hok]).
  destruct Hok as (sd & b'' & _ & [= <-] & Hfetch2 & Hdec2).
  rewrite (read_seek_none E None s1' eq_refl) in Hseek2.
  injection Hseek2 as <- <-.
  rewrite Hpend in Hin.
  rewrite (read_fetch_pending E _ _ _ _ Hin) in Hfetch2.
  injection Hfetch2 as <-.
  apply read_decode_stamp in Hdec2
    as (c2 & m2 & t & _ & Hstamp2 & Hfind2 & _ & _).
  rewrite Hfind2 in Ht2. injection Ht2 as ->.
  apply timestamp_Some in Hstamp2 as [_ ->].
  rewrite Ha, Hn, Hrate2.
  set (r := samplingRate (mConfig s1)) in *.
  set (f := frameLength (mConfig s1)) in *.
  set (a := mAnchorTimeUs s1) in *.
  set (n0 := mNumSamplesOutput sb) in *.
  assert (Hn0' : 0 <= n0 <= mNumSamplesOutput s).
  { destruct Hsamples as [[-> _] | Hz]; [lia|]. subst n0. lia. }
  assert (Hrange : forall z, 0 <= z <= INT64_MAX -> to_int64 z = z).
  { intros z Hz. apply to_int64_id. unfold in_int64, INT64_MIN in *. lia. }
  assert (HMAX : INT64_MAX = 9223372036854775807) by reflexivity.
  assert (Hsum : mNumSamplesOutput s1 = n0 + f).
  { rewrite Hn1. unfold int64_add. apply Hrange. nia. }
  rewrite Hsum in *. rewrite Ha1.
  unfold int64_mul. rewrite !Hrange by nia.
  assert (Hq0 : 0 <= (n0 * 1000000) ÷ r) by (apply Z.quot_pos; nia).
  assert (Hq : (n0 * 1000000) ÷ r <= ((n0 + f) * 1000000) ÷ r)
    by (apply Z.quot_le_mono; nia).
  unfold int64_add.
  rewrite !to_int64_id by (unfold in_int64; lia).
  replace (n0 + f - f) with n0 by lia.
  repeat split; lia.
Qed.

Lemma read_timestamps_nondecreasing_witness :
  let E := Scenario.player (Some 500000) in
  let s := Scenario.started (Some 500000) in
  let s1' := Scenario.read1 (Some 500000) in
  exists b1 s1 b2 s2,
    read E None None s = Returns (OK, Some b1, s1)
    /\ read E None None s1' = Returns (OK, Some b2, s2)
    /\ MetaData.findInt64 kKeyTime (mMetaData b1) = Some 0
    /\ MetaData.findInt64 kKeyTime (mMetaData b2) = Some 23219
    /\ 0 <= 23219.
Proof.
  intros E s s1'.
  pose (s1 := Scenario.state_of (read E None None s) s).
  pose (b1 := match read E None None s with
              | Returns (_, Some b, _) => b
              | _ => MediaBuffer_new 0
              end).
  pose (s2 := Scenario.state_of (read E None None s1') s1').
  pose (b2 := match read E None None s1' with
              | Returns (_, Some b, _) => b
              | _ => MediaBuffer_new 0
              end).
  assert (Hread1 : read E None None s = Returns (OK, Some b1, s1))
    by (vm_compute; reflexivity).
  assert (Hread2 : read E None None s1' = Returns (OK, Some b2, s2))
    by (vm_compute; reflexivity).
  assert (Ht1 : MetaData.findInt64 kKeyTime (mMetaData b1) = Some 0)
    by (vm_compute; reflexivity).
  assert (Ht2 : MetaData.findInt64 kKeyTime (mMetaData b2) = Some 23219)
    by (vm_compute; reflexivity).
  assert (H1 : is_Some (mInputBuffer s1)) by (vm_compute; eauto).
  assert (H2 : mInputBuffer s1' = mInputBuffer s1)
    by (vm_compute; reflexivity).
  assert (H3 : mAnchorTimeUs s1' = mAnchorTimeUs s1)
    by (vm_compute; reflexivity).
  assert (H4 : mNumSamplesOutput s1' = mNumSamplesOutput s1)
    by (vm_compute; reflexivity).
  assert (H5 : samplingRate (mConfig s2) = samplingRate (mConfig s1))
    by (vm_compute; reflexivity).
  assert (H6 : 0 < samplingRate (mConfig s1)) by (vm_compute; reflexivity).
  assert (H7 : 0 <= frameLength (mConfig s1)) by (vm_compute; discriminate).
  assert (H8 : 0 <= mNumSamplesOutput s) by (vm_compute; discriminate).
  assert (H9 : (mNumSamplesOutput s + frameLength (mConfig s1)) * 1000000
               <= INT64_MAX) by (vm_compute; discriminate).
  assert (H10 : INT64_MIN <= mAnchorTimeUs s1) by (vm_compute; discriminate).
  assert (H11 : mAnchorTimeUs s1
                + (mNumSamplesOutput s1 * 1000000)
                    ÷ samplingRate (mConfig s1) <= INT64_MAX)
    by (vm_compute; discriminate).
  destruct (read_timestamps_nondecreasing E None None s s1 s1' s2 OK OK
              b1 b2 0 23219 Hread1 H1 H2 H3 H4 Hread2 H5 H6 H7 H8 H9 H10 H11
              Ht1 Ht2) as (Hle & _).
  exists b1, s1, b2, s2.
  split; [exact Hread1|]. split; [exact Hread2|]. split; [exact Ht1|].
  split; [exact Ht2 | exact Hle].
Defined.


(** ** The decode step and its input *)

(** X7: on a [read] whose decode step succeeds (the first two blocks went
    through, the pool hands out a buffer, the library reports a positive
    sampling rate) the buffer returned holds exactly what the library wrote,
    with nothing silenced; it is the buffer of the pool slot that was
    acquired, with its capacity, and the pool records it as handed out. *)
Theorem read_returns_decoded_pcm :
  forall (E : Env) out options (s : AACDecoder E) seek s1 s2
         group slot buffer group' input scratch,
    read_seek E options s = Returns (seek, s1) ->
    read_fetch E options seek s1 = Returns (None, s2) ->
    mBufferGroup s2 = Some group ->
    MediaBufferGroup.acquire_buffer group
      = (OK, Some (slot, buffer), group') ->
    mInputBuffer s2 = Some input ->
    mDecoderBuf s2 = Some scratch ->
    let r := PVMP4AudioDecodeFrame E
               (decode_call input buffer (mConfig s2)) scratch in
    dr_status r = MP4AUDEC_SUCCESS ->
    0 < samplingRate (dr_config r) ->
    exists b s',
      read E out options s = Returns (OK, Some b, s')
      /\ mData b = dr_output r
      /\ mSize b = mSize buffer
      /\ mRangeOffset b = 0
      /\ mRangeLength b = numOutBytes (dr_config r)
      /\ mConfig s' = dr_config r
      /\ mDecoderBuf s' = Some (dr_scratch r)
      /\ group !! slot = Some (MediaBufferGroup.mkSlot buffer false)
      /\ exists group'',
           mBufferGroup s' = Some group''
           /\ group'' !! slot = Some (MediaBufferGroup.mkSlot b true)
           /\ length group'' = length group.
Proof.
  intros E out options s seek s1 s2 group slot buffer group' input scratch
    Hseek Hfetch Hg Hacq Hin Hbuf r Hok Hrate.
  set (s3 := after_decode_step s2 group' input buffer r).
  pose proof (timestamp_defined (mAnchorTimeUs s3) (mNumSamplesOutput s3)
                _ Hrate) as Ht.
  eexists _, _. split.
  { rewrite (read_decodes E out _ _ _ _ _ Hseek Hfetch).
    erewrite (proj2 (read_decode_returns_iff E s2 _ _)); [reflexivity|].
    exists group, slot, buffer, group', input, scratch.
    eexists _, s3, _. repeat split; try eassumption.
    fold r. rewrite Hok. apply substitute_silence_success. }
  pose proof (advance_input_frame E (dr_config r) s3)
    as (_ & _ & Hg4 & Hc4 & Hb4 & _).
  apply acquire_buffer_spec in Hacq as [Hslot ->].
  split; [reflexivity|]. split; [reflexivity|]. split; [reflexivity|].
  split; [reflexivity|]. split; [exact Hc4|]. split; [exact Hb4|].
  split; [exact Hslot|].
  eexists. split.
  { unfold with_group, with_samples. cbn [mBufferGroup]. fold r.
    rewrite Hg4. reflexivity. }
  unfold MediaBufferGroup.store. rewrite list_insert_insert_eq.
  split; [|by rewrite length_insert].
  apply list_lookup_insert_eq. by eapply lookup_lt_Some.
Qed.

Lemma read_returns_decoded_pcm_witness :
  let E := Scenario.player (Some 500000) in
  let s := Scenario.started (Some 500000) in
  exists b s',
    read E None None s = Returns (OK, Some b, s')
    /\ mData b = replicate 4096 Byte.x01
    /\ mSize b = 4096.
Proof.
  intros E s.
  pose (s2 := Scenario.state_of (read_fetch E None (-1) s) s).
  pose (group := default [] (mBufferGroup s2)).
  pose (buffer := MediaBufferGroup.slot_buffer
                    (default (MediaBufferGroup.mkSlot (MediaBuffer_new 0) true)
                       (head group))).
  pose (input := Scenario.unit_of Scenario.ten_bytes (Some 0)).
  destruct (read_returns_decoded_pcm E None None s (-1) s s2
              group 0%nat buffer
              (MediaBufferGroup.store 0 buffer group) input 0%nat)
    as (b & s' & Hread & Hdata & Hsize & _).
  - vm_compute; reflexivity.
  - vm_compute; reflexivity.
  - vm_compute; reflexivity.
  - vm_compute; reflexivity.
  - vm_compute; reflexivity.
  - vm_compute; reflexivity.
  - vm_compute; reflexivity.
  - vm_compute; reflexivity.
  - exists b, s'. split; [exact Hread|]. split; [exact Hdata | exact Hsize].
Defined.

(** X8: draining a unit.  Take a stage whose pending input is a window
    that a decode step has advanced by [used] bytes (the bytes were within
    the window, and the window within 2^31 bytes), and a [read] without a
    seek whose decode step succeeds.  The [read] does not read the source;
    the decode step is handed the bytes of the unit that follow those
    used, a current length that is [used] less, and reset transient
    members; and what the [read] returns and leaves is what that step
    produced. *)
Theorem read_decodes_remaining_bytes :
  forall (E : Env) out options (s : AACDecoder E)
         group slot buffer group' input used scratch,
    options ≫= getSeekTo = None ->
    let input' :=
      set_range (size_add (mRangeOffset input) used)
        (size_sub (mRangeLength input) used) input in
    mInputBuffer s = Some input' ->
    mBufferGroup s = Some group ->
    MediaBufferGroup.acquire_buffer group
      = (OK, Some (slot, buffer), group') ->
    mDecoderBuf s = Some scratch ->
    0 <= mRangeOffset input ->
    0 <= used <= mRangeLength input ->
    mRangeOffset input + mRangeLength input < 2 ^ 31 ->
    let c := decode_call input' buffer (mConfig s) in
    let r := PVMP4AudioDecodeFrame E c scratch in
    dr_status r = MP4AUDEC_SUCCESS ->
    0 < samplingRate (dr_config r) ->
    pInputBuffer c
      = Some (drop (Z.to_nat used)
                (drop (Z.to_nat (mRangeOffset input)) (mData input)))
    /\ inputBufferCurrentLength c = mRangeLength input - used
    /\ inputBufferUsedLength c = 0
    /\ remainderBits c = 0
    /\ repositionFlag c = false
    /\ exists b s',
         read E out options s = Returns (OK, Some b, s')
         /\ mConfig s' = dr_config r
         /\ mDecoderBuf s' = Some (dr_scratch r)
         /\ mData b = dr_output r
         /\ mSource s' = mSource s
         /\ count is_source_read (events_since s s') = 0%nat.
Proof.
  intros E out options s group slot buffer group' input used scratch
    Hopt input' Hin Hg Hacq Hbuf Hoff Hused Hsum c r Hok Hrate.
  assert (Hwin : mRangeOffset input' = mRangeOffset input + used
                 /\ mRangeLength input' = mRangeLength input - used).
  { unfold input', size_add, size_sub. simpl.
    rewrite !to_size_t_id by (unfold in_size_t, size_bits; lia). done. }
  destruct Hwin as [Hoff' Hlen'].
  split.
  { unfold c, decode_call, prepare_call. cbn [pInputBuffer].
    rewrite Hoff'. rewrite drop_drop. do 2 f_equal. lia. }
  split.
  { unfold c, decode_call, prepare_call. cbn [inputBufferCurrentLength].
    rewrite Hlen'. apply to_int32_id. lia. }
  split; [reflexivity|]. split; [reflexivity|]. split; [reflexivity|].
  set (s3 := after_decode_step s group' input' buffer r).
  pose proof (timestamp_defined (mAnchorTimeUs s3) (mNumSamplesOutput s3)
                _ Hrate) as Ht.
  assert (Hdec : exists b s',
            read_decode E s = Returns (b, s')
            /\ mConfig s' = dr_config r
            /\ mDecoderBuf s' = Some (dr_scratch r)
            /\ mData b = dr_output r
            /\ mSource s' = mSource s).
  { eexists _, _. split.
    { apply read_decode_returns_iff.
      exists group, slot, buffer, group', input', scratch.
      eexists _, s3, _. repeat split; try eassumption.
      fold c. fold r. rewrite Hok. apply substitute_silence_success. }
    pose proof (advance_input_frame E (dr_config r) s3)
      as (Hs4 & _ & _ & Hc4 & Hb4 & _).
    split; [exact Hc4|]. split; [exact Hb4|]. split; [reflexivity|].
    exact Hs4. }
  destruct Hdec as (b & s' & Hdec & Hcfg & Hscr & Hdata & Hsrc).
  exists b, s'. split.
  { rewrite (read_decodes E out options s (-1) s s
               (read_seek_none E options s Hopt)
               (read_fetch_pending E options (-1) s input' Hin)).
    by rewrite Hdec. }
  split; [exact Hcfg|]. split; [exact Hscr|]. split; [exact Hdata|].
  split; [exact Hsrc|].
  apply read_decode_events_exact in Hdec as (rel & Hev & Hrel).
  rewrite (events_since_app E s s' _ Hev).
  by destruct Hrel as [-> | [i ->]].
Qed.

Lemma read_decodes_remaining_bytes_witness :
  let E := Scenario.player (Some 500000) in
  let s := Scenario.read1 (Some 500000) in
  mInputBuffer s
  = Some (set_range 4 6 (Scenario.unit_of Scenario.ten_bytes (Some 0)))
  /\ exists b s',
       read E None None s = Returns (OK, Some b, s')
       /\ mData b = replicate 4096 Byte.x02
       /\ mSource s' = mSource s
       /\ count is_source_read (events_since s s') = 0%nat.
Proof.
  intros E s.
  pose (group := default [] (mBufferGroup s)).
  pose (buffer := MediaBufferGroup.slot_buffer
                    (default (MediaBufferGroup.mkSlot (MediaBuffer_new 0) true)
                       (head group))).
  pose (input := Scenario.unit_of Scenario.ten_bytes (Some 0)).
  split; [vm_compute; reflexivity|].
  destruct (read_decodes_remaining_bytes E None None s group 0%nat buffer
              (MediaBufferGroup.store 0 buffer group) input 4 1%nat)
    as (_ & _ & _ & _ & _ & b & s' & Hread & _ & _ & Hdata & Hsrc & Hcount).
  - reflexivity.
  - vm_compute; reflexivity.
  - vm_compute; reflexivity.
  - vm_compute; reflexivity.
  - vm_compute; reflexivity.
  - vm_compute; discriminate.
  - vm_compute; split; discriminate.
  - vm_compute; reflexivity.
  - vm_compute; reflexivity.
  - vm_compute; reflexivity.
  - exists b, s'. split; [exact Hread|].
    split; [rewrite Hdata; vm_compute; reflexivity|].
    split; [exact Hsrc | exact Hcount].
Defined.

(** ** [start], [getFormat] and the destructor *)

(** X9: a [start] that returns was made on a stage that was not started and
    returns [OK] or [ERROR_UNSUPPORTED], nothing else.  With [OK] the stage
    is started, the source has been started exactly once, and the anchor
    and the sample count are zero.  With [ERROR_UNSUPPORTED] the format of
    the source carries a codec configuration, the stage is not started and
    the source has not been touched: it is never started.  Either way
    [malloc] has been called exactly once and [free] not at all, and the
    pending input is as before. *)
Theorem start_status_and_source :
  forall (E : Env) params (s : AACDecoder E) st s',
    start E params s = Returns (st, s') ->
    mStarted s = false
    /\ allocated (events_since s s') = 1
    /\ count is_malloc (events_since s s') = 1%nat
    /\ count is_free (events_since s s') = 0%nat
    /\ mInputBuffer s' = mInputBuffer s
    /\ ((st = OK
         /\ mStarted s' = true
         /\ mSource s' = src_start E (mSource s)
         /\ count is_source_start (events_since s s') = 1%nat
         /\ mAnchorTimeUs s' = 0
         /\ mNumSamplesOutput s' = 0)
        \/ (st = ERROR_UNSUPPORTED
            /\ mStarted s' = false
            /\ mSource s' = mSource s
            /\ count is_source_start (events_since s s') = 0%nat
            /\ is_Some (MetaData.findData kKeyESDS
                          (src_getFormat E (mSource s)))
            /\ mAnchorTimeUs s' = mAnchorTimeUs s
            /\ mNumSamplesOutput s' = mNumSamplesOutput s)).
Proof.
  intros E params s st s'.
  start_cases E s; intros H; injection H as <- <-;
    (split; [reflexivity|]);
    erewrite !events_since_app
      by (simpl; rewrite <- ?app_assoc; simpl; reflexivity);
    (split; [reflexivity|]); (split; [reflexivity|]);
    (split; [reflexivity|]); (split; [reflexivity|]).
  - right. repeat split; simpl; eauto.
  - left. repeat split; reflexivity.
  - left. repeat split; reflexivity.
Qed.

Lemma start_status_and_source_witness :
  let E := Scenario.env Scenario.format_esds [] 5 [] in
  let s := AACDecoder_new E 0%nat Scenario.garbage in
  exists s',
    start E None s = Returns (ERROR_UNSUPPORTED, s')
    /\ mSource s' = mSource s
    /\ count is_source_start (events_since s s') = 0%nat.
Proof.
  intros E s.
  pose (s' := Scenario.state_of (start E None s) s).
  assert (Hstart : start E None s = Returns (ERROR_UNSUPPORTED, s'))
    by (vm_compute; reflexivity).
  destruct (start_status_and_source E None s _ s' Hstart)
    as (_ & _ & _ & _ & _ & [(Hst & _) | (_ & _ & Hsrc & Hcount & _)]).
  - discriminate Hst.
  - exists s'. split; [exact Hstart|]. split; [exact Hsrc | exact Hcount].
Defined.

(** X10: [getFormat] fails its assertion exactly when the format of the
    source has no 32-bit integer under the sample rate key, be the key
    absent or its item of another type; otherwise it returns, in whatever
    state the stage is, started or not. *)
Theorem getFormat_aborts_iff_no_sample_rate :
  forall (E : Env) (s : AACDecoder E),
    (getFormat E s = Aborts
     <-> MetaData.findInt32 kKeySampleRate (src_getFormat E (mSource s))
         = None)
    /\ (getFormat E s = Aborts \/ exists meta, getFormat E s = Returns (meta, s))
    /\ (forall v,
          src_getFormat E (mSource s) !! kKeySampleRate = Some (Int64Item v) ->
          getFormat E s = Aborts)
    /\ (src_getFormat E (mSource s) !! kKeySampleRate = None ->
        getFormat E s = Aborts).
Proof.
  intros E s.
  assert (Hiff : getFormat E s = Aborts
                 <-> MetaData.findInt32 kKeySampleRate
                       (src_getFormat E (mSource s)) = None).
  { unfold getFormat.
    destruct (MetaData.findInt32 kKeySampleRate _); split; done. }
  split; [exact Hiff|]. split.
  { unfold getFormat.
    destruct (MetaData.findInt32 kKeySampleRate _); eauto. }
  split.
  - intros v Hv. apply Hiff. unfold MetaData.findInt32. by rewrite Hv.
  - intros Hv. apply Hiff. unfold MetaData.findInt32. by rewrite Hv.
Qed.

Lemma getFormat_aborts_iff_no_sample_rate_witness :
  let E := Scenario.env
             (MetaData.setInt64 kKeySampleRate 44100 MetaData.empty) [] 0 [] in
  getFormat E (AACDecoder_new E 0%nat Scenario.garbage) = Aborts.
Proof.
  intros E.
  destruct (getFormat_aborts_iff_no_sample_rate E
              (AACDecoder_new E 0%nat Scenario.garbage))
    as (_ & _ & Htype & _).
  apply (Htype 44100). reflexivity.
Defined.

(** X11: the destructor always completes.  On a started stage it stops the
    stage: the pending input is released, the scratch memory and the pool
    are freed and the source is stopped.  On a stage that is not started it
    calls nothing, and whatever scratch memory and pool the stage holds are
    left allocated; under the invariant that scratch memory is held only
    while started, nothing is left. *)
Theorem destructor_stops_started_stage :
  forall (E : Env) (s : AACDecoder E),
    exists r,
      destructor s = Returns r
      /\ (mStarted s = true ->
          rem_scratch r = None /\ rem_pool r = None /\ rem_input r = None
          /\ rem_source r = src_stop E (mSource s)
          /\ rem_events r = events s ++ released s ++ [Free; SourceStopped])
      /\ (mStarted s = false ->
          rem_scratch r = mDecoderBuf s /\ rem_pool r = mBufferGroup s
          /\ rem_input r = mInputBuffer s
          /\ rem_source r = mSource s
          /\ rem_events r = events s)
      /\ (engine_state_invariant s -> rem_scratch r = None).
Proof.
  intros E s. unfold destructor, stop, CHECK.
  destruct (mStarted s) eqn:Hst; simpl.
  - eexists. split; [reflexivity|]. simpl.
    split; [|split; [discriminate | done]].
    intros _. unfold release_input, released.
    destruct (mInputBuffer s) eqn:Hin; simpl; repeat split; try done;
      by rewrite <- ?app_assoc.
  - eexists. split; [reflexivity|]. simpl.
    split; [discriminate|]. split; [done|].
    intros [Hinv _]. destruct (mDecoderBuf s); [|done].
    rewrite Hst in Hinv. discriminate Hinv. eauto.
Qed.

Lemma destructor_stops_started_stage_witness :
  let E := Scenario.player (Some 500000) in
  let s := Scenario.read1 (Some 500000) in
  exists r,
    destructor s = Returns r
    /\ is_Some (mInputBuffer s)
    /\ rem_scratch r = None /\ rem_pool r = None /\ rem_input r = None
    /\ allocated (rem_events r) = 0.
Proof.
  intros E s.
  destruct (destructor_stops_started_stage E s)
    as (r & Hret & Hstarted & _ & _).
  destruct Hstarted as (Hb & Hg & Hi & _ & Hev); [vm_compute; reflexivity|].
  exists r. split; [exact Hret|].
  split; [vm_compute; eauto|].
  split; [exact Hb|]. split; [exact Hg|]. split; [exact Hi|].
  etransitivity; [exact (f_equal allocated Hev)|]. vm_compute. reflexivity.
Defined.

(** ** Sequences of calls *)

Section Sequences.

Variable E : Env.
Implicit Types s : AACDecoder E.

Lemma start_allocates_once params s st s' :
  start E params s = Returns (st, s') ->
  mStarted s = false
  /\ held s' = 1
  /\ exists l, events s' = events s ++ l /\ allocated l = 1.
Proof.
  start_cases E s; intros H; injection H as <- <-;
    (split; [reflexivity|]); (split; [reflexivity|]);
    eexists; (split; [simpl; rewrite <- ?app_assoc; simpl; reflexivity|]);
    reflexivity.
Qed.

Lemma stop_frees_once s st s' :
  stop E s = Returns (st, s') ->
  mStarted s = true
  /\ held s' = 0
  /\ exists l, events s' = events s ++ l /\ allocated l = -1.
Proof.
  unfold stop, CHECK. destruct (mStarted s); simpl; [|discriminate].
  intros [= <- <-]. split; [done|]. split; [done|].
  exists (released s ++ [Free; SourceStopped]). split.
  - simpl. rewrite release_input_events. by rewrite <- !app_assoc.
  - rewrite allocated_app. unfold released.
    by destruct (mInputBuffer s).
Qed.

Lemma read_allocates_nothing out options s st o s' :
  read E out options s = Returns (st, o, s') ->
  exists l, events s' = events s ++ l /\ allocated l = 0.
Proof.
  intros Hread.
  apply read_events_exact in Hread as (decoded & Hev & Hdec).
  eexists. split; [exact Hev|].
  rewrite !allocated_app, allocated_seek_released.
  destruct (pulls options s);
    destruct Hdec as [[_ ->] | (_ & rel & -> & [-> | [i ->]])]; done.
Qed.

(** One call keeps the invariant and the balance of the scratch memory. *)
Lemma call_keeps_invariant c s st s' :
  call c s = Returns (st, s') ->
  engine_state_invariant s ->
  start_succeeded (c, st) ->
  engine_state_invariant s'
  /\ exists l, events s' = events s ++ l /\ allocated l = held s' - held s.
Proof.
  intros Hcall Hinv Hok. destruct c as [params| | |options|slot]; simpl in Hcall.
  - destruct (start E params s) as [[st0 s0]| |] eqn:Hstart;
      simpl in Hcall; try discriminate.
    injection Hcall as <- <-. simpl in Hok. subst st0.
    split; [by eapply start_ok_engine_state_invariant|].
    apply start_allocates_once in Hstart as (Hst & Hheld & l & Hev & Hal).
    exists l. split; [exact Hev|].
    rewrite (invariant_held E s Hinv), Hst, Hheld, Hal. reflexivity.
  - destruct (stop E s) as [[st0 s0]| |] eqn:Hstop;
      simpl in Hcall; try discriminate.
    injection Hcall as <- <-.
    split; [by eapply stop_engine_state_invariant|].
    apply stop_frees_once in Hstop as (Hst & Hheld & l & Hev & Hal).
    exists l. split; [exact Hev|].
    rewrite (invariant_held E s Hinv), Hst, Hheld, Hal. reflexivity.
  - unfold getFormat in Hcall.
    destruct (MetaData.findInt32 kKeySampleRate _); simpl in Hcall;
      [|discriminate].
    injection Hcall as <- <-. split; [exact Hinv|].
    exists []. rewrite app_nil_r. split; [done | simpl; lia].
  - destruct (read E None options s) as [[[st0 o] s0]| |] eqn:Hread;
      simpl in Hcall; try discriminate.
    injection Hcall as <- <-.
    pose proof (read_frame E _ _ _ _ _ _ Hread) as (Hst & Hheld & _).
    split.
    + apply held_invariant. rewrite Hheld, Hst. by apply invariant_held.
    + apply read_allocates_nothing in Hread as (l & Hev & Hal).
      exists l. split; [exact Hev|]. rewrite Hheld, Hal. lia.
  - injection Hcall as <- <-. split; [exact Hinv|].
    exists []. simpl. rewrite app_nil_r. split; [done | unfold held; simpl; lia].
Qed.

Lemma calls_keep_invariant cs : forall s log s',
  calls cs s = Returns (log, s') ->
  engine_state_invariant s ->
  Forall start_succeeded log ->
  engine_state_invariant s'
  /\ exists l, events s' = events s ++ l /\ allocated l = held s' - held s.
Proof.
  induction cs as [|c cs IH]; intros s log s' Hcalls Hinv Hok;
    simpl in Hcalls.
  - injection Hcalls as <- <-. split; [exact Hinv|].
    exists []. rewrite app_nil_r. split; [done | simpl; lia].
  - destruct (call c s) as [[st s1]| |] eqn:Hcall;
      simpl in Hcalls; try discriminate.
    destruct (calls cs s1) as [[log1 s2]| |] eqn:Hrest;
      simpl in Hcalls; try discriminate.
    injection Hcalls as <- <-.
    apply Forall_cons in Hok as [Hok1 Hok2].
    destruct (call_keeps_invariant _ _ _ _ Hcall Hinv Hok1)
      as (Hinv1 & l1 & Hev1 & Hal1).
    destruct (IH _ _ _ Hrest Hinv1 Hok2) as (Hinv2 & l2 & Hev2 & Hal2).
    split; [exact Hinv2|]. exists (l1 ++ l2). split.
    + rewrite Hev2, Hev1. by rewrite <- app_assoc.
    + rewrite allocated_app. lia.
Qed.

End Sequences.

(** X12: over any sequence of [start], [stop], [getFormat], [read] and
    releases of output buffers that runs to its end and in which every
    [start] returned [OK], a stage that holds scratch memory exactly while
    started (a newly constructed one does) still does so at the end. *)
Theorem calls_keep_engine_state_invariant :
  forall (E : Env) cs (s : AACDecoder E) log s',
    calls cs s = Returns (log, s') ->
    engine_state_invariant s ->
    Forall start_succeeded log ->
    engine_state_invariant s'.
Proof.
  intros E cs s log s' Hcalls Hinv Hok.
  by destruct (calls_keep_invariant E cs s log s' Hcalls Hinv Hok).
Qed.

(** X13: over such a sequence no scratch memory is lost: the blocks
    allocated less the blocks freed during the sequence are the blocks held
    at the end less those held at the start, and the stage holds one block
    if it is started and none if it is not.  A sequence that starts on a
    new stage and ends stopped has freed every block it allocated. *)
Theorem calls_balance_scratch_memory :
  forall (E : Env) cs (s : AACDecoder E) log s',
    calls cs s = Returns (log, s') ->
    engine_state_invariant s ->
    Forall start_succeeded log ->
    allocated (events_since s s') = held s' - held s
    /\ held s' = (if mStarted s' then 1 else 0)
    /\ (mStarted s = false -> mStarted s' = false ->
        allocated (events_since s s') = 0).
Proof.
  intros E cs s log s' Hcalls Hinv Hok.
  destruct (calls_keep_invariant E cs s log s' Hcalls Hinv Hok)
    as (Hinv' & l & Hev & Hal).
  rewrite (events_since_app E s s' l Hev).
  pose proof (invariant_held E s Hinv) as Hh.
  pose proof (invariant_held E s' Hinv') as Hh'.
  split; [exact Hal|]. split; [exact Hh'|].
  intros Hs Hs'. rewrite Hal, Hh, Hh', Hs, Hs'. reflexivity.
Qed.

Lemma calls_keep_engine_state_invariant_witness :
  let E := Scenario.player (Some 500000) in
  let s := AACDecoder_new E 0%nat Scenario.garbage in
  exists log s',
    calls [CallStart None; CallRead None; CallRelease 0; CallGetFormat;
           CallRead (Scenario.seek 1000)] s = Returns (log, s')
    /\ log.*2 = [Some OK; Some OK; None; None; Some OK]
    /\ engine_state_invariant s'.
Proof.
  intros E s.
  pose (cs := [CallStart None; CallRead None; CallRelease 0; CallGetFormat;
               CallRead (Scenario.seek 1000)]).
  pose (log := zip cs [Some OK; Some OK; None; None; Some OK]).
  pose (s' := Scenario.state_of (calls cs s) s).
  assert (Hcalls : calls cs s = Returns (log, s'))
    by (vm_compute; reflexivity).
  exists log, s'. split; [exact Hcalls|]. split; [reflexivity|].
  apply (calls_keep_engine_state_invariant E cs s log s' Hcalls).
  - apply new_engine_state_invariant.
  - repeat constructor.
Defined.

Lemma calls_balance_scratch_memory_witness :
  let E := Scenario.player (Some 500000) in
  let s := AACDecoder_new E 0%nat Scenario.garbage in
  exists log s',
    calls [CallStart None; CallRead None; CallStop; CallStart None;
           CallStop] s = Returns (log, s')
    /\ mStarted s' = false
    /\ allocated (events s') = 0.
Proof.
  intros E s.
  pose (cs := [CallStart None; CallRead None; CallStop; CallStart None;
               CallStop]).
  pose (log := zip cs [Some OK; Some OK; Some OK; Some OK; Some OK]).
  pose (s' := Scenario.state_of (calls cs s) s).
  assert (Hcalls : calls cs s = Returns (log, s'))
    by (vm_compute; reflexivity).
  destruct (calls_balance_scratch_memory E cs s log s' Hcalls)
    as (_ & _ & Hzero).
  - apply new_engine_state_invariant.
  - repeat constructor.
  - exists log, s'. split; [exact Hcalls|].
    assert (Hs' : mStarted s' = false) by (vm_compute; reflexivity).
    split; [exact Hs'|]. exact (Hzero eq_refl Hs').
Defined.
